(** * renderfx math library: vectors, matrices, quaternions and geometry

    A shallow embedding of [include/math/*.inl] and the properties of the
    library's specification proved (or refuted) on it.

    The C++ templates are generic in the scalar type [T].  Here a scalar is
    a real number, that is, the exact arithmetic the floating-point code
    approximates; what depends on [T] beyond the arithmetic,
    [std::numeric_limits<T>::epsilon()], is the field of a traits class.
    "Equal within epsilon" is read as [Rabs (a - b) < epsilon], the test
    the vectors' [operator==] performs.

    Real arithmetic neither rounds nor overflows.  Where a result depends
    on a computed value staying finite, the property is stated for inputs
    on which the floating-point computation stays finite as well.  The
    integer rectangles [Recti] are embedded over [Z], with the range of
    [int] as an explicit condition. *)

From Stdlib Require Import Reals Lra Lia List Bool Arith ZArith.
Import ListNotations.

Set Implicit Arguments.
Open Scope R_scope.

(** ** Scalars *)

(** [std::numeric_limits<T>]: machine epsilon is the gap between 1 and the
    next representable value, hence strictly between 0 and 1 for every
    floating-point [T]. *)
Class numeric_limits : Type := {
  epsilon : R;
  epsilon_pos : 0 < epsilon;
  epsilon_lt_1 : epsilon < 1
}.

(** [float]: epsilon is 2^-23. *)
Definition float_limits : numeric_limits :=
  {| epsilon := / 8388608;
     epsilon_pos := ltac:(lra);
     epsilon_lt_1 := ltac:(lra) |}.

(** [double]: epsilon is 2^-52. *)
Definition double_limits : numeric_limits :=
  {| epsilon := / 4503599627370496;
     epsilon_pos := ltac:(lra);
     epsilon_lt_1 := ltac:(lra) |}.


(** The comparisons of the source as booleans: [a < b] and [a <= b]
    ([a > b] is written [Rltb b a], [a >= b] is [Rleb b a]). *)
Definition Rltb (a b : R) : bool := if Rlt_dec a b then true else false.

Definition Rleb (a b : R) : bool := if Rle_dec a b then true else false.

Arguments Rltb a b : simpl never.
Arguments Rleb a b : simpl never.

(** [std::max(a, b)] is [(a < b) ? b : a]; [std::min(a, b)] is
    [(b < a) ? b : a]; [std::clamp(v, lo, hi)] is
    [(v < lo) ? lo : (hi < v) ? hi : v]. *)
Definition std_max (a b : R) : R := if Rltb a b then b else a.

Definition std_min (a b : R) : R := if Rltb b a then b else a.

Definition std_clamp (v lo hi : R) : R :=
  if Rltb v lo then lo else if Rltb hi v then hi else v.

(** Equality within epsilon: [|a - b| < epsilon]. *)
Definition within_epsilon {L : numeric_limits} (a b : R) : Prop :=
  Rabs (a - b) < epsilon.

(** A scalar slot that may also hold one of the two infinities of the
    floating-point type, as [tMin] and [tMax] of the slab test do. *)
Inductive ExtR : Type :=
| neg_infinity
| finite (r : R)
| infinity.

(** [a < b] on such slots. *)
Definition ext_ltb (a b : ExtR) : bool :=
  match a, b with
  | neg_infinity, neg_infinity => false
  | neg_infinity, _ => true
  | finite _, neg_infinity => false
  | finite r, finite s => Rltb r s
  | finite _, infinity => true
  | infinity, _ => false
  end.

Definition ext_max (a b : ExtR) : ExtR := if ext_ltb a b then b else a.

Definition ext_min (a b : ExtR) : ExtR := if ext_ltb b a then b else a.

(** [for (int i = 0; i < n; ++i) body], threading the variables the body
    updates. *)
Definition for_ {S : Type} (n : nat) (body : nat -> S -> S) (s : S) : S :=
  fold_left (fun acc i => body i acc) (seq 0 n) s.

(** ** Exceptions *)

(** The standard exceptions the library throws. *)
Inductive exn : Type :=
| out_of_range
| invalid_argument
| domain_error
| runtime_error.

(** The outcome of a call that may throw.  A function declared [noexcept]
    that lets an exception escape terminates the program; its outcome is
    the same [Throw]. *)
Inductive result (A : Type) : Type :=
| Ok (a : A)
| Throw (e : exn).

Arguments Ok {A} a.
Arguments Throw {A} e.

Definition bind {A B : Type} (r : result A) (k : A -> result B) : result B :=
  match r with
  | Ok a => k a
  | Throw e => Throw e
  end.

Notation "x <- c1 ;; c2" := (bind c1 (fun x => c2))
  (at level 61, c1 at next level, right associativity).

(** The same loop when the body may throw. *)
Definition for_r {S : Type} (n : nat) (body : nat -> S -> result S) (s : S)
  : result S :=
  fold_left (fun acc i => s' <- acc ;; body i s') (seq 0 n) (Ok s).

(** A loop body either falls through to the next iteration or executes
    [return]. *)
Inductive control (S A : Type) : Type :=
| Next (s : S)
| Return (a : A).

Arguments Next {S A} s.
Arguments Return {S A} a.

(** A loop over the indices [idxs] that may [return] from inside its body;
    [done] is what follows the loop. *)
Fixpoint for_return {S A : Type} (idxs : list nat)
  (body : nat -> S -> result (control S A)) (done : S -> A) (s : S)
  : result A :=
  match idxs with
  | [] => Ok (done s)
  | i :: rest =>
      c <- body i s ;;
      match c with
      | Next s' => for_return rest body done s'
      | Return a => Ok a
      end
  end.

(** A member function that mutates [*this]: it maps the object to the
    object it leaves behind, together with what it returned or threw.  A
    throw keeps the object as it stands at the [throw]. *)
Definition method (S A : Type) : Type := S -> S * result A.

Definition mthrow {S A : Type} (e : exn) : method S A := fun s => (s, Throw e).

Definition mbind {S A B : Type} (m : method S A) (k : A -> method S B)
  : method S B :=
  fun s =>
    match m s with
    | (s', Ok a) => k a s'
    | (s', Throw e) => (s', Throw e)
    end.

(** Read a value off the object; overwrite the object. *)
Definition gets {S A : Type} (f : S -> A) : method S A := fun s => (s, Ok (f s)).

Definition modify {S : Type} (f : S -> S) : method S unit :=
  fun s => (f s, Ok tt).

Notation "x <~ c1 ;; c2" := (mbind c1 (fun x => c2))
  (at level 61, c1 at next level, right associativity).
Notation "c1 ;;; c2" := (mbind c1 (fun _ => c2))
  (at level 61, right associativity).

(** The object a mutating call leaves, when it returns. *)
Definition exec {S A : Type} (m : method S A) (s : S) : result S :=
  match m s with
  | (s', Ok _) => Ok s'
  | (_, Throw e) => Throw e
  end.

(** ** Vector2 (Vector2.inl) *)

Module Vector2.

Record t : Type := mk { x : R; y : R }.

(** [operator/(T s) const] *)
Definition div {L : numeric_limits} (v : t) (s : R) : result t :=
  if Rltb (Rabs s) epsilon then Throw invalid_argument
  else Ok (mk (x v / s) (y v / s)).

(** [operator/=(T s)]: [x /= s; y /= s;] after the guard. *)
Definition div_assign {L : numeric_limits} (s : R) : method t unit :=
  if Rltb (Rabs s) epsilon then mthrow invalid_argument
  else
    modify (fun v => mk (x v / s) (y v)) ;;;
    modify (fun v => mk (x v) (y v / s)).

Definition lengthSquared (v : t) : R := x v * x v + y v * y v.

Definition length (v : t) : R := sqrt (lengthSquared v).

(** [normalized() const] *)
Definition normalized {L : numeric_limits} (v : t) : result t :=
  let len := length v in
  if Rltb len epsilon then Throw domain_error
  else div v len.

(** [normalize()]: [*this /= len] after the guard. *)
Definition normalize {L : numeric_limits} : method t unit :=
  len <~ gets length ;;
  if Rltb len epsilon then mthrow domain_error
  else div_assign len.

End Vector2.

(** ** Vector3 (Vector3.inl) *)

Module Vector3.

Record t : Type := mk { x : R; y : R; z : R }.

(** [operator[](int i) const]: [(&x)[i]] for [i] in [0..2]. *)
Definition index (v : t) (i : nat) : result R :=
  match i with
  | 0%nat => Ok (x v)
  | 1%nat => Ok (y v)
  | 2%nat => Ok (z v)
  | _ => Throw out_of_range
  end.

(** Assignment through the reference [operator[](int i)] returns. *)
Definition set_index (v : t) (i : nat) (a : R) : result t :=
  match i with
  | 0%nat => Ok (mk a (y v) (z v))
  | 1%nat => Ok (mk (x v) a (z v))
  | 2%nat => Ok (mk (x v) (y v) a)
  | _ => Throw out_of_range
  end.

Definition add (a b : t) : t := mk (x a + x b) (y a + y b) (z a + z b).

Definition sub (a b : t) : t := mk (x a - x b) (y a - y b) (z a - z b).

(** [operator*(T s) const] *)
Definition scale (v : t) (s : R) : t := mk (x v * s) (y v * s) (z v * s).

Definition dot (a b : t) : R := x a * x b + y a * y b + z a * z b.

Definition lengthSquared (v : t) : R := x v * x v + y v * y v + z v * z v.

Definition length (v : t) : R := sqrt (lengthSquared v).

Definition up : t := mk 0 1 0.

(** [operator/(T s) const] *)
Definition div {L : numeric_limits} (v : t) (s : R) : result t :=
  if Rltb (Rabs s) epsilon then Throw invalid_argument
  else Ok (mk (x v / s) (y v / s) (z v / s)).

(** [operator/=(T s)]: [x /= s; y /= s; z /= s;] after the guard. *)
Definition div_assign {L : numeric_limits} (s : R) : method t unit :=
  if Rltb (Rabs s) epsilon then mthrow invalid_argument
  else
    modify (fun v => mk (x v / s) (y v) (z v)) ;;;
    modify (fun v => mk (x v) (y v / s) (z v)) ;;;
    modify (fun v => mk (x v) (y v) (z v / s)).

(** [normalized() const] *)
Definition normalized {L : numeric_limits} (v : t) : result t :=
  let len := length v in
  if Rltb len epsilon then Throw domain_error
  else div v len.

(** [normalize()]: [*this /= len] after the guard. *)
Definition normalize {L : numeric_limits} : method t unit :=
  len <~ gets length ;;
  if Rltb len epsilon then mthrow domain_error
  else div_assign len.

(** [slerp(a, b, t)]: the dot product is clamped, never negated. *)
Definition slerp {L : numeric_limits} (a b : t) (s : R) : result t :=
  let dot0 := dot a b in
  let dot1 := std_clamp dot0 (-1) 1 in
  let theta := acos dot1 * s in
  relativeVec <- normalized (sub b (scale a dot1)) ;;
  Ok (add (scale a (cos theta)) (scale relativeVec (sin theta))).

(** [operator*(const Vector3& other) const], componentwise. *)
Definition mul (a other : t) : t :=
  mk (x a * x other) (y a * y other) (z a * z other).

Definition cross (a v : t) : t :=
  mk (y a * z v - z a * y v) (z a * x v - x a * z v) (x a * y v - y a * x v).

(** [operator==] *)
Definition eqb {L : numeric_limits} (a v : t) : bool :=
  Rltb (Rabs (x a - x v)) epsilon &&
  Rltb (Rabs (y a - y v)) epsilon &&
  Rltb (Rabs (z a - z v)) epsilon.


Definition reflect (a normal : t) : t :=
  sub a (scale normal (2 * dot a normal)).

Definition lerp (a b : t) (s : R) : t := add a (scale (sub b a) s).



End Vector3.

(** ** Matrix4x4 (Matrix4x4.inl) *)

(** [std::array<A, 4>].  Indexing past the end is undefined in C++; the
    code below never does it, and the model reads or writes the last
    element there. *)
Record array4 (A : Type) : Type := Array4 { e0 : A; e1 : A; e2 : A; e3 : A }.

Definition at4 {A : Type} (a : array4 A) (i : nat) : A :=
  match i with
  | 0%nat => e0 a
  | 1%nat => e1 a
  | 2%nat => e2 a
  | _ => e3 a
  end.

Definition set4 {A : Type} (a : array4 A) (i : nat) (v : A) : array4 A :=
  match i with
  | 0%nat => Array4 v (e1 a) (e2 a) (e3 a)
  | 1%nat => Array4 (e0 a) v (e2 a) (e3 a)
  | 2%nat => Array4 (e0 a) (e1 a) v (e3 a)
  | _ => Array4 (e0 a) (e1 a) (e2 a) v
  end.

Module Matrix4x4.

(** The member [data], row-major. *)
Definition t : Type := array4 (array4 R).

(** [operator()(row, col) const] *)
Definition get (m : t) (row col : nat) : R := at4 (at4 m row) col.

(** Assignment through [operator()(row, col)]. *)
Definition set (m : t) (row col : nat) (v : R) : t :=
  set4 m row (set4 (at4 m row) col v).

(** The default constructor: [data] is the identity matrix. *)
Definition default : t :=
  Array4 (Array4 1 0 0 0) (Array4 0 1 0 0) (Array4 0 0 1 0) (Array4 0 0 0 1).

(** [Matrix4x4(const std::array<T, 16>& values)]; every entry of [data]
    is assigned by the loop. *)
Definition of_values (values : list R) : t :=
  for_ 16 (fun i m => set m (i / 4) (i mod 4) (nth i values 0)) default.

(** [operator*(const Matrix4x4& other) const] *)
Definition mul (this other : t) : t :=
  for_ 4 (fun i result =>
    for_ 4 (fun j result =>
      let result := set result i j 0 in
      for_ 4 (fun k result =>
        set result i j (get result i j + get this i k * get other k j))
        result)
      result)
    default.

Definition identity : t := default.

(** [translation(v)]: [setIdentity()] and the three entries of column 3. *)
Definition translation (v : Vector3.t) : t :=
  let result := default in
  let result := set result 0 3 (Vector3.x v) in
  let result := set result 1 3 (Vector3.y v) in
  let result := set result 2 3 (Vector3.z v) in
  result.

(** [perspective(fov, aspectRatio, near, far)], on a default-constructed
    [result]. *)
Definition perspective (fov aspectRatio near far : R) : t :=
  let result := default in
  let tanHalfFov := tan (fov / 2) in
  let result := set result 0 0 (1 / (aspectRatio * tanHalfFov)) in
  let result := set result 1 1 (1 / tanHalfFov) in
  let result := set result 2 2 (- (far + near) / (far - near)) in
  let result := set result 2 3 (- (2 * far * near) / (far - near)) in
  let result := set result 3 2 (-1) in
  let result := set result 3 3 0 in
  result.

(** [inverse() const].  [inv] is default-constructed; the four assignments
    before the determinant are the only cofactors the function computes. *)
Definition inverse {L : numeric_limits} (m : t) : result t :=
  let inv := default in
  let inv := set inv 0 0
    (get m 1 1 * get m 2 2 * get m 3 3 -
     get m 1 1 * get m 2 3 * get m 3 2 -
     get m 2 1 * get m 1 2 * get m 3 3 +
     get m 2 1 * get m 1 3 * get m 3 2 +
     get m 3 1 * get m 1 2 * get m 2 3 -
     get m 3 1 * get m 1 3 * get m 2 2) in
  let inv := set inv 1 0
    (- get m 1 0 * get m 2 2 * get m 3 3 +
     get m 1 0 * get m 2 3 * get m 3 2 +
     get m 2 0 * get m 1 2 * get m 3 3 -
     get m 2 0 * get m 1 3 * get m 3 2 -
     get m 3 0 * get m 1 2 * get m 2 3 +
     get m 3 0 * get m 1 3 * get m 2 2) in
  let inv := set inv 2 0
    (get m 1 0 * get m 2 1 * get m 3 3 -
     get m 1 0 * get m 2 3 * get m 3 1 -
     get m 2 0 * get m 1 1 * get m 3 3 +
     get m 2 0 * get m 1 3 * get m 3 1 +
     get m 3 0 * get m 1 1 * get m 2 3 -
     get m 3 0 * get m 1 3 * get m 2 1) in
  let inv := set inv 3 0
    (- get m 1 0 * get m 2 1 * get m 3 2 +
     get m 1 0 * get m 2 2 * get m 3 1 +
     get m 2 0 * get m 1 1 * get m 3 2 -
     get m 2 0 * get m 1 2 * get m 3 1 -
     get m 3 0 * get m 1 1 * get m 2 2 +
     get m 3 0 * get m 1 2 * get m 2 1) in
  let det := (get m 0 0 * get inv 0 0 + get m 0 1 * get inv 1 0 +
              get m 0 2 * get inv 2 0 + get m 0 3 * get inv 3 0) in
  if Rltb (Rabs det) epsilon then Throw runtime_error
  else
    let det := 1 / det in
    Ok (for_ 4 (fun i inv =>
          for_ 4 (fun j inv => set inv i j (get inv i j * det)) inv) inv).

(** [determinant() const] *)
Definition determinant (m : t) : R :=
  get m 0 0 *
    (get m 1 1 * get m 2 2 * get m 3 3 + get m 1 2 * get m 2 3 * get m 3 1 +
     get m 1 3 * get m 2 1 * get m 3 2 - get m 1 3 * get m 2 2 * get m 3 1 -
     get m 1 1 * get m 2 3 * get m 3 2 - get m 1 2 * get m 2 1 * get m 3 3)
  - get m 0 1 *
    (get m 1 0 * get m 2 2 * get m 3 3 + get m 1 2 * get m 2 3 * get m 3 0 +
     get m 1 3 * get m 2 0 * get m 3 2 - get m 1 3 * get m 2 2 * get m 3 0 -
     get m 1 0 * get m 2 3 * get m 3 2 - get m 1 2 * get m 2 0 * get m 3 3)
  + get m 0 2 *
    (get m 1 0 * get m 2 1 * get m 3 3 + get m 1 1 * get m 2 3 * get m 3 0 +
     get m 1 3 * get m 2 0 * get m 3 1 - get m 1 3 * get m 2 1 * get m 3 0 -
     get m 1 0 * get m 2 3 * get m 3 1 - get m 1 1 * get m 2 0 * get m 3 3)
  - get m 0 3 *
    (get m 1 0 * get m 2 1 * get m 3 2 + get m 1 1 * get m 2 2 * get m 3 0 +
     get m 1 2 * get m 2 0 * get m 3 1 - get m 1 2 * get m 2 1 * get m 3 0 -
     get m 1 0 * get m 2 2 * get m 3 1 - get m 1 1 * get m 2 0 * get m 3 2).

(** Entrywise equality within epsilon. *)
Definition close {L : numeric_limits} (a b : t) : Prop :=
  forall i j : nat, (i < 4)%nat -> (j < 4)%nat ->
    within_epsilon (get a i j) (get b i j).

(** [operator*(const Vector3& vec) const]: the point [(vec, 1)], divided
    by its fourth coordinate when that is above epsilon in magnitude. *)
Definition mul_vec {L : numeric_limits} (m : t) (vec : Vector3.t)
  : Vector3.t :=
  let x := Vector3.x vec * get m 0 0 + Vector3.y vec * get m 0 1
           + Vector3.z vec * get m 0 2 + get m 0 3 in
  let y := Vector3.x vec * get m 1 0 + Vector3.y vec * get m 1 1
           + Vector3.z vec * get m 1 2 + get m 1 3 in
  let z := Vector3.x vec * get m 2 0 + Vector3.y vec * get m 2 1
           + Vector3.z vec * get m 2 2 + get m 2 3 in
  let w := Vector3.x vec * get m 3 0 + Vector3.y vec * get m 3 1
           + Vector3.z vec * get m 3 2 + get m 3 3 in
  if Rltb epsilon (Rabs w) then Vector3.mk (x / w) (y / w) (z / w)
  else Vector3.mk x y z.

(** [transposed() const] *)
Definition transposed (m : t) : t :=
  for_ 4 (fun i result =>
    for_ 4 (fun j result => set result i j (get m j i)) result)
    default.

(** [scaling(scale)] *)
Definition scaling (scale : Vector3.t) : t :=
  let result := default in
  let result := set result 0 0 (Vector3.x scale) in
  let result := set result 1 1 (Vector3.y scale) in
  let result := set result 2 2 (Vector3.z scale) in
  result.

(** [rotationX(angle)] *)
Definition rotationX (angle : R) : t :=
  let result := default in
  let c := cos angle in
  let s := sin angle in
  let result := set result 1 1 c in
  let result := set result 1 2 (- s) in
  let result := set result 2 1 s in
  let result := set result 2 2 c in
  result.

(** [rotationY(angle)] *)
Definition rotationY (angle : R) : t :=
  let result := default in
  let c := cos angle in
  let s := sin angle in
  let result := set result 0 0 c in
  let result := set result 0 2 s in
  let result := set result 2 0 (- s) in
  let result := set result 2 2 c in
  result.

(** [rotationZ(angle)] *)
Definition rotationZ (angle : R) : t :=
  let result := default in
  let c := cos angle in
  let s := sin angle in
  let result := set result 0 0 c in
  let result := set result 0 1 (- s) in
  let result := set result 1 0 s in
  let result := set result 1 1 c in
  result.

(** [lookAt(eye, center, up)] *)
Definition lookAt {L : numeric_limits} (eye center up : Vector3.t)
  : result t :=
  f <- Vector3.normalized (Vector3.sub center eye) ;;
  s <- Vector3.normalized (Vector3.cross f up) ;;
  let u := Vector3.cross s f in
  let result := default in
  let result := set result 0 0 (Vector3.x s) in
  let result := set result 0 1 (Vector3.y s) in
  let result := set result 0 2 (Vector3.z s) in
  let result := set result 1 0 (Vector3.x u) in
  let result := set result 1 1 (Vector3.y u) in
  let result := set result 1 2 (Vector3.z u) in
  let result := set result 2 0 (- Vector3.x f) in
  let result := set result 2 1 (- Vector3.y f) in
  let result := set result 2 2 (- Vector3.z f) in
  let result := set result 0 3 (- Vector3.dot s eye) in
  let result := set result 1 3 (- Vector3.dot u eye) in
  let result := set result 2 3 (Vector3.dot f eye) in
  let result := set result 3 3 1 in
  Ok result.


(** The last row is (0, 0, 0, 1): the matrix is an affine map. *)
Definition affine (m : t) : Prop :=
  get m 3 0 = 0 /\ get m 3 1 = 0 /\ get m 3 2 = 0 /\ get m 3 3 = 1.

End Matrix4x4.

(** ** Quaternion (Quaternion.inl) *)

Module Quaternion.

Record t : Type := mk { w : R; x : R; y : R; z : R }.

Definition magnitude (q : t) : R :=
  sqrt (w q * w q + x q * x q + y q * y q + z q * z q).

(** [normalized() const] *)
Definition normalized {L : numeric_limits} (q : t) : result t :=
  let mag := magnitude q in
  if Rltb mag epsilon then Throw runtime_error
  else Ok (mk (w q / mag) (x q / mag) (y q / mag) (z q / mag)).

(** [slerp(q1, q2, t)]: shortest-arc flip, linear fallback above 0.9995,
    spherical formula otherwise. *)
Definition slerp {L : numeric_limits} (q1 q2 : t) (s : R) : result t :=
  let q2_adj := q2 in
  let dot := w q1 * w q2 + x q1 * x q2 + y q1 * y q2 + z q1 * z q2 in
  let '(q2_adj, dot) :=
    if Rltb dot 0 then (mk (- w q2) (- x q2) (- y q2) (- z q2), - dot)
    else (q2_adj, dot) in
  if Rltb (9995 / 10000) dot then
    normalized (mk (w q1 + s * (w q2_adj - w q1))
                   (x q1 + s * (x q2_adj - x q1))
                   (y q1 + s * (y q2_adj - y q1))
                   (z q1 + s * (z q2_adj - z q1)))
  else
    let theta_0 := acos dot in
    let theta := theta_0 * s in
    let sin_theta := sin theta in
    let sin_theta_0 := sin theta_0 in
    let s0 := cos theta - dot * sin_theta / sin_theta_0 in
    let s1 := sin_theta / sin_theta_0 in
    Ok (mk (s0 * w q1 + s1 * w q2_adj)
           (s0 * x q1 + s1 * x q2_adj)
           (s0 * y q1 + s1 * y q2_adj)
           (s0 * z q1 + s1 * z q2_adj)).

(** Componentwise equality within epsilon. *)
Definition close {L : numeric_limits} (a b : t) : Prop :=
  within_epsilon (w a) (w b) /\ within_epsilon (x a) (x b) /\
  within_epsilon (y a) (y b) /\ within_epsilon (z a) (z b).

(** Unit length. *)
Definition unit (q : t) : Prop :=
  w q * w q + x q * x q + y q * y q + z q * z q = 1.

(** The identity-interpolation property read for every quaternion and
    every parameter: [slerp(q, q, t)] returns [q] within epsilon. *)
Definition slerp_self_returns_self (L : numeric_limits) : Prop :=
  forall (q : t) (s : R), exists r : t, slerp q q s = Ok r /\ close r q.

(** [Quaternion()]: the identity rotation. *)
Definition default : t := mk 1 0 0 0.

(** [Quaternion(axis, angle)] *)
Definition of_axis_angle (axis : Vector3.t) (angle : R) : t :=
  let halfAngle := angle * (1 / 2) in
  let sinHalfAngle := sin halfAngle in
  mk (cos halfAngle)
     (Vector3.x axis * sinHalfAngle)
     (Vector3.y axis * sinHalfAngle)
     (Vector3.z axis * sinHalfAngle).

(** [operator*(const Quaternion& q) const]: the Hamilton product. *)
Definition mul (p q : t) : t :=
  mk (w p * w q - x p * x q - y p * y q - z p * z q)
     (w p * x q + x p * w q + y p * z q - z p * y q)
     (w p * y q - x p * z q + y p * w q + z p * x q)
     (w p * z q + x p * y q - y p * x q + z p * w q).

Definition conjugate (q : t) : t := mk (w q) (- x q) (- y q) (- z q).

(** [operator*(const Vector3& v) const]: the product of this quaternion,
    [p] and [conjugate()], in that order. *)
Definition rotate (this : t) (v : Vector3.t) : Vector3.t :=
  let p := mk 0 (Vector3.x v) (Vector3.y v) (Vector3.z v) in
  let q := mul (mul this p) (conjugate this) in
  Vector3.mk (x q) (y q) (z q).

(** [inverse() const] *)
Definition inverse {L : numeric_limits} (q : t) : result t :=
  let magSquared := w q * w q + x q * x q + y q * y q + z q * z q in
  if Rltb magSquared epsilon then Throw runtime_error
  else
    let invMagSquared := 1 / magSquared in
    Ok (mk (w q * invMagSquared) (- x q * invMagSquared)
           (- y q * invMagSquared) (- z q * invMagSquared)).

(** [toRotationMatrix() const], on a default-constructed [m]. *)
Definition toRotationMatrix (q : t) : Matrix4x4.t :=
  let xx := x q * x q in
  let yy := y q * y q in
  let zz := z q * z q in
  let xy := x q * y q in
  let xz := x q * z q in
  let yz := y q * z q in
  let wx := w q * x q in
  let wy := w q * y q in
  let wz := w q * z q in
  let m := Matrix4x4.default in
  let m := Matrix4x4.set m 0 0 (1 - 2 * (yy + zz)) in
  let m := Matrix4x4.set m 0 1 (2 * (xy - wz)) in
  let m := Matrix4x4.set m 0 2 (2 * (xz + wy)) in
  let m := Matrix4x4.set m 1 0 (2 * (xy + wz)) in
  let m := Matrix4x4.set m 1 1 (1 - 2 * (xx + zz)) in
  let m := Matrix4x4.set m 1 2 (2 * (yz - wx)) in
  let m := Matrix4x4.set m 2 0 (2 * (xz - wy)) in
  let m := Matrix4x4.set m 2 1 (2 * (yz + wx)) in
  let m := Matrix4x4.set m 2 2 (1 - 2 * (xx + yy)) in
  let m := Matrix4x4.set m 3 3 1 in
  m.

(** [fromAxisAngle(axis, angle)] *)
Definition fromAxisAngle (axis : Vector3.t) (angle : R) : t :=
  let halfAngle := angle * (1 / 2) in
  let sinHalfAngle := sin halfAngle in
  mk (cos halfAngle)
     (Vector3.x axis * sinHalfAngle)
     (Vector3.y axis * sinHalfAngle)
     (Vector3.z axis * sinHalfAngle).

(** [fromEulerAngles(pitch, yaw, roll)] *)
Definition fromEulerAngles (pitch yaw roll : R) : t :=
  let cy := cos (yaw * (1 / 2)) in
  let sy := sin (yaw * (1 / 2)) in
  let cp := cos (pitch * (1 / 2)) in
  let sp := sin (pitch * (1 / 2)) in
  let cr := cos (roll * (1 / 2)) in
  let sr := sin (roll * (1 / 2)) in
  mk (cr * cp * cy + sr * sp * sy)
     (sr * cp * cy - cr * sp * sy)
     (cr * sp * cy + sr * cp * sy)
     (cr * cp * sy - sr * sp * cy).

(** The squared magnitude, as [inverse()] computes it. *)
Definition magSquared (q : t) : R :=
  w q * w q + x q * x q + y q * y q + z q * z q.

(** The quaternion with every component negated, the value
    [slerp] substitutes for its second argument on the long arc. *)
Definition negated (q : t) : t := mk (- w q) (- x q) (- y q) (- z q).

(** The four-dimensional dot product [slerp] starts from. *)
Definition dot (q1 q2 : t) : R :=
  w q1 * w q2 + x q1 * x q2 + y q1 * y q2 + z q1 * z q2.

End Quaternion.

(** ** Geometry (Geometry.inl) *)

Module Ray.

Record t : Type := mk { origin : Vector3.t; direction : Vector3.t }.

(** [Ray(origin, direction)]: the direction is stored normalized. *)
Definition make {L : numeric_limits} (origin direction : Vector3.t)
  : result t :=
  d <- Vector3.normalized direction ;;
  Ok (mk origin d).

(** [getPoint(t)] *)
Definition getPoint (r : t) (s : R) : Vector3.t :=
  Vector3.add (origin r) (Vector3.scale (direction r) s).

End Ray.

Module AABB.

Record t : Type := mk { min : Vector3.t; max : Vector3.t }.

(** One iteration of the slab loop on axis [i], on the pair
    [(tMin, tMax)].  [return false] leaves the output parameters as they
    stand. *)
Definition slab {L : numeric_limits} (box : t) (ray : Ray.t) (i : nat)
  (st : ExtR * ExtR) : result (control (ExtR * ExtR) (bool * ExtR * ExtR)) :=
  let '(tMin, tMax) := st in
  dir_i <- Vector3.index (Ray.direction ray) i ;;
  if Rltb (Rabs dir_i) epsilon then
    org_i <- Vector3.index (Ray.origin ray) i ;;
    min_i <- Vector3.index (min box) i ;;
    if Rltb org_i min_i then Ok (Return (false, tMin, tMax))
    else
      org_i <- Vector3.index (Ray.origin ray) i ;;
      max_i <- Vector3.index (max box) i ;;
      if Rltb max_i org_i then Ok (Return (false, tMin, tMax))
      else Ok (Next (tMin, tMax))
  else
    min_i <- Vector3.index (min box) i ;;
    org_i <- Vector3.index (Ray.origin ray) i ;;
    dir_i <- Vector3.index (Ray.direction ray) i ;;
    let t1 := (min_i - org_i) / dir_i in
    max_i <- Vector3.index (max box) i ;;
    org_i <- Vector3.index (Ray.origin ray) i ;;
    dir_i <- Vector3.index (Ray.direction ray) i ;;
    let t2 := (max_i - org_i) / dir_i in
    let '(t1, t2) := if Rltb t2 t1 then (t2, t1) else (t1, t2) in
    let tMin := ext_max tMin (finite t1) in
    let tMax := ext_min tMax (finite t2) in
    if ext_ltb tMax tMin then Ok (Return (false, tMin, tMax))
    else Ok (Next (tMin, tMax)).

(** [intersects(ray, tMin, tMax)]: the returned boolean with the final
    values of the two output parameters, which the function overwrites
    on entry. *)
Definition intersects {L : numeric_limits} (box : t) (ray : Ray.t)
  : result (bool * ExtR * ExtR) :=
  for_return (seq 0 3) (slab box ray)
    (fun st => (true, fst st, snd st))
    (neg_infinity, infinity).

(** [contains(point)] *)
Definition contains (box : t) (point : Vector3.t) : bool :=
  Rleb (Vector3.x (min box)) (Vector3.x point) &&
  Rleb (Vector3.x point) (Vector3.x (max box)) &&
  Rleb (Vector3.y (min box)) (Vector3.y point) &&
  Rleb (Vector3.y point) (Vector3.y (max box)) &&
  Rleb (Vector3.z (min box)) (Vector3.z point) &&
  Rleb (Vector3.z point) (Vector3.z (max box)).



End AABB.

Module Plane.

Record t : Type := mk { normal : Vector3.t; distance : R }.

(** [Plane()] *)
Definition default : t := mk Vector3.up 0.

(** [Plane(normal, distance)] *)
Definition of_normal_distance {L : numeric_limits} (normal : Vector3.t)
  (distance : R) : result t :=
  n <- Vector3.normalized normal ;;
  Ok (mk n distance).

(** [Plane(normal, point)].  In the member initializers the name [normal]
    is the constructor's parameter, also in the initializer of
    [distance]. *)
Definition of_normal_point {L : numeric_limits} (normal point : Vector3.t)
  : result t :=
  n <- Vector3.normalized normal ;;
  Ok (mk n (- Vector3.dot normal point)).

Definition distanceToPoint (p : t) (point : Vector3.t) : R :=
  Vector3.dot (normal p) point + distance p.

(** [intersects(ray, t)]: the returned boolean and the final value of the
    output parameter, which holds [t0] on entry. *)
Definition intersects {L : numeric_limits} (p : t) (ray : Ray.t) (t0 : R)
  : bool * R :=
  let denom := Vector3.dot (normal p) (Ray.direction ray) in
  if Rltb (Rabs denom) epsilon then (false, t0)
  else
    let t1 := - (Vector3.dot (normal p) (Ray.origin ray) + distance p) / denom in
    (Rleb 0 t1, t1).

End Plane.

Module Sphere.

Record t : Type := mk { center : Vector3.t; radius : R }.

Definition contains (s : t) (point : Vector3.t) : bool :=
  Rleb (Vector3.lengthSquared (Vector3.sub point (center s)))
       (radius s * radius s).

(** [intersects(ray, t)]: the returned boolean and the final value of the
    output parameter, which holds [t0] on entry. *)
Definition intersects (s : t) (ray : Ray.t) (t0 : R) : bool * R :=
  let m := Vector3.sub (Ray.origin ray) (center s) in
  let b := Vector3.dot m (Ray.direction ray) in
  let c := Vector3.dot m m - radius s * radius s in
  if Rltb 0 c && Rltb 0 b then (false, t0)
  else
    let discriminant := b * b - c in
    if Rltb discriminant 0 then (false, t0)
    else
      let t1 := - b - sqrt discriminant in
      let t1 := if Rltb t1 0 then 0 else t1 in
      (true, t1).

End Sphere.

Module Frustum.

(** The member [planes], an [std::array<Plane<T>, 6>]. *)
Definition t : Type := list Plane.t.

(** [planes[k]] *)
Definition plane (f : t) (k : nat) : Plane.t := nth k f Plane.default.

(** Overwrite [planes[k]]. *)
Fixpoint set_plane (f : t) (k : nat) (p : Plane.t) : t :=
  match f, k with
  | [], _ => []
  | _ :: rest, O => p :: rest
  | q :: rest, S k' => q :: set_plane rest k' p
  end.

(** [Frustum() = default]: six default-constructed planes. *)
Definition default : t := repeat Plane.default 6.

(** [planes[k].normal[i] = v;] *)
Definition set_normal (k i : nat) (v : R) (f : t) : result t :=
  n <- Vector3.set_index (Plane.normal (plane f k)) i v ;;
  Ok (set_plane f k (Plane.mk n (Plane.distance (plane f k)))).

(** [planes[k].distance = v;] *)
Definition set_distance (k : nat) (v : R) (f : t) : t :=
  set_plane f k (Plane.mk (Plane.normal (plane f k)) v).

(** The body of the first loop of [updatePlanes]. *)
Definition normals_body (vp : Matrix4x4.t) (i : nat) (f : t) : result t :=
  let m := Matrix4x4.get vp in
  f <- set_normal 0 i (m i 2%nat + m i 3%nat) f ;;
  f <- set_normal 1 i (- m i 2%nat + m i 3%nat) f ;;
  f <- set_normal 2 i (m i 0%nat + m i 3%nat) f ;;
  f <- set_normal 3 i (- m i 0%nat + m i 3%nat) f ;;
  f <- set_normal 4 i (m i 1%nat + m i 3%nat) f ;;
  set_normal 5 i (- m i 1%nat + m i 3%nat) f.

(** The body of the second loop of [updatePlanes]. *)
Definition normalize_body {L : numeric_limits} (vp : Matrix4x4.t) (i : nat)
  (f : t) : result t :=
  let m := Matrix4x4.get vp in
  let f := set_distance i (m 3%nat 3%nat - m 3%nat (i / 2)%nat) f in
  let length := Vector3.length (Plane.normal (plane f i)) in
  n <- exec (Vector3.div_assign length) (Plane.normal (plane f i)) ;;
  let f := set_plane f i (Plane.mk n (Plane.distance (plane f i))) in
  Ok (set_distance i (Plane.distance (plane f i) / length) f).

(** [updatePlanes(viewProjection)] *)
Definition updatePlanes {L : numeric_limits} (f : t) (vp : Matrix4x4.t)
  : result t :=
  f <- for_r 3 (normals_body vp) f ;;
  for_r 6 (normalize_body vp) f.

(** [Frustum(viewProjection)] *)
Definition make {L : numeric_limits} (vp : Matrix4x4.t) : result t :=
  updatePlanes default vp.

(** The two shapes of the assignments of the first loop: the upper three
    rows of column [c] added to those of column 3, and the same with
    column [c] negated. *)
Definition column_plus (vp : Matrix4x4.t) (c : nat) : Vector3.t :=
  let m := Matrix4x4.get vp in
  Vector3.mk (m 0%nat c + m 0%nat 3%nat)
             (m 1%nat c + m 1%nat 3%nat)
             (m 2%nat c + m 2%nat 3%nat).

Definition column_minus (vp : Matrix4x4.t) (c : nat) : Vector3.t :=
  let m := Matrix4x4.get vp in
  Vector3.mk (- m 0%nat c + m 0%nat 3%nat)
             (- m 1%nat c + m 1%nat 3%nat)
             (- m 2%nat c + m 2%nat 3%nat).

(** The column the first loop uses for the normal of plane [k]. *)
Definition normal_column (k : nat) : nat :=
  match k with
  | 0%nat | 1%nat => 2%nat
  | 2%nat | 3%nat => 0%nat
  | _ => 1%nat
  end.

(** The normal of plane [k] when the first loop is over: column
    [normal_column k] is added for even [k], subtracted for odd [k]. *)
Definition raw_normal (vp : Matrix4x4.t) (k : nat) : Vector3.t :=
  if Nat.even k then column_plus vp (normal_column k)
  else column_minus vp (normal_column k).

(** Plane [k] as the second loop leaves it. *)
Definition updated_plane (vp : Matrix4x4.t) (k : nat) : Plane.t :=
  let n := raw_normal vp k in
  let len := Vector3.length n in
  Plane.mk
    (Vector3.mk (Vector3.x n / len) (Vector3.y n / len) (Vector3.z n / len))
    ((Matrix4x4.get vp 3 3 - Matrix4x4.get vp 3 (k / 2)) / len).

(** The distance coefficient of plane [k] as the specification words it,
    before normalization: [VP(3,3)] plus or minus the entry of row 3 in
    the column used for that plane's normal. *)
Definition extraction_distance (vp : Matrix4x4.t) (k : nat) : R :=
  if Nat.even k
  then Matrix4x4.get vp 3 3 + Matrix4x4.get vp 3 (normal_column k)
  else Matrix4x4.get vp 3 3 - Matrix4x4.get vp 3 (normal_column k).

(** The entries of [perspective(2 atan(1/4), 1, 1, 3)]: near plane 1, far
    plane 3, aspect ratio 1 and [tan(fov / 2) = 1/4]. *)
Definition perspective_example : Matrix4x4.t :=
  Matrix4x4.of_values
    [4; 0; 0; 0;
     0; 4; 0; 0;
     0; 0; -2; -3;
     0; 0; -1; 0].

(** [contains(point)]: the range-for returns false at the first plane
    with the point on its negative side. *)
Definition contains (f : t) (point : Vector3.t) : bool :=
  forallb (fun plane => negb (Rltb (Plane.distanceToPoint plane point) 0)) f.

(** The corner of the box the body of [intersects] selects for a
    plane. *)
Definition positive_vertex (plane : Plane.t) (aabb : AABB.t) : Vector3.t :=
  let positive := AABB.min aabb in
  let positive :=
    if Rleb 0 (Vector3.x (Plane.normal plane))
    then Vector3.mk (Vector3.x (AABB.max aabb)) (Vector3.y positive)
                    (Vector3.z positive)
    else positive in
  let positive :=
    if Rleb 0 (Vector3.y (Plane.normal plane))
    then Vector3.mk (Vector3.x positive) (Vector3.y (AABB.max aabb))
                    (Vector3.z positive)
    else positive in
  let positive :=
    if Rleb 0 (Vector3.z (Plane.normal plane))
    then Vector3.mk (Vector3.x positive) (Vector3.y positive)
                    (Vector3.z (AABB.max aabb))
    else positive in
  positive.

(** [intersects(aabb)] *)
Definition intersects (f : t) (aabb : AABB.t) : bool :=
  forallb (fun plane =>
    negb (Rltb (Plane.distanceToPoint plane (positive_vertex plane aabb)) 0))
    f.

End Frustum.

Module Transform.

Record t : Type := mk {
  position : Vector3.t;
  rotation : Quaternion.t;
  scale : Vector3.t
}.

(** [toMatrix()] *)
Definition toMatrix (tr : t) : Matrix4x4.t :=
  Matrix4x4.mul
    (Matrix4x4.mul (Matrix4x4.translation (position tr))
                   (Quaternion.toRotationMatrix (rotation tr)))
    (Matrix4x4.scaling (scale tr)).

(** [transformPoint(point)] *)
Definition transformPoint (tr : t) (point : Vector3.t) : Vector3.t :=
  Vector3.add (Quaternion.rotate (rotation tr) (Vector3.mul point (scale tr)))
              (position tr).

(** [transformDirection(direction)] *)
Definition transformDirection (tr : t) (direction : Vector3.t) : Vector3.t :=
  Quaternion.rotate (rotation tr) direction.

(** [interpolate(other, t)] *)
Definition interpolate {L : numeric_limits} (tr other : t) (s : R)
  : result t :=
  q <- Quaternion.slerp (rotation tr) (rotation other) s ;;
  Ok (mk (Vector3.lerp (position tr) (position other) s)
         q
         (Vector3.lerp (scale tr) (scale other) s)).

End Transform.

(** ** Rect (Rect.inl) *)

Module Rect.

Record t : Type := mk { x : R; y : R; width : R; height : R }.

(** [Rect()] *)
Definition default : t := mk 0 0 0 0.

Definition right (r : t) : R := x r + width r.

Definition bottom (r : t) : R := y r + height r.

Definition intersects (r other : t) : bool :=
  negb (Rleb (right r) (x other) || Rleb (right other) (x r) ||
        Rleb (bottom r) (y other) || Rleb (bottom other) (y r)).

Definition intersection (r other : t) : t :=
  let intersectLeft := std_max (x r) (x other) in
  let intersectTop := std_max (y r) (y other) in
  let intersectRight := std_min (right r) (right other) in
  let intersectBottom := std_min (bottom r) (bottom other) in
  if Rltb intersectLeft intersectRight && Rltb intersectTop intersectBottom
  then mk intersectLeft intersectTop
          (intersectRight - intersectLeft)
          (intersectBottom - intersectTop)
  else default.

End Rect.

(** ** Integer rectangles *)

(** [Vector2i = Vector2<int>]: the points of [Recti]. *)
Module Vector2i.

Record t : Type := mk { x : Z; y : Z }.

End Vector2i.

(** [Recti = Rect<int>]: the member functions of [Rect] at [T = int].  An
    [int] is an integer of [Z]; the arithmetic of [int] is that of [Z] as
    long as every value computed is representable in 32 bits (overflow is
    undefined). *)
Module Recti.

Local Open Scope Z_scope.

Definition INT_MAX : Z := 2147483647.

Definition INT_MIN : Z := -2147483648.

Definition representable (z : Z) : Prop := INT_MIN <= z <= INT_MAX.

(** [std::max] and [std::min] at [int]. *)
Definition std_max (a b : Z) : Z := if a <? b then b else a.

Definition std_min (a b : Z) : Z := if b <? a then b else a.

Record t : Type := mk { x : Z; y : Z; width : Z; height : Z }.

(** [Rect()] *)
Definition default : t := mk 0 0 0 0.

Definition right (r : t) : Z := x r + width r.

Definition bottom (r : t) : Z := y r + height r.

(** [contains(point)] *)
Definition contains (r : t) (point : Vector2i.t) : bool :=
  (x r <=? Vector2i.x point) && (Vector2i.x point <? right r) &&
  (y r <=? Vector2i.y point) && (Vector2i.y point <? bottom r).

Definition intersection (r other : t) : t :=
  let intersectLeft := std_max (x r) (x other) in
  let intersectTop := std_max (y r) (y other) in
  let intersectRight := std_min (right r) (right other) in
  let intersectBottom := std_min (bottom r) (bottom other) in
  if (intersectLeft <? intersectRight) && (intersectTop <? intersectBottom)
  then mk intersectLeft intersectTop
          (intersectRight - intersectLeft)
          (intersectBottom - intersectTop)
  else default.

(** [expand(point)]: [width] and [height] are assigned before [x] and
    [y], from the old origin. *)
Definition expand (point : Vector2i.t) : method t unit :=
  newX <~ gets (fun r => std_min (x r) (Vector2i.x point)) ;;
  newY <~ gets (fun r => std_min (y r) (Vector2i.y point)) ;;
  modify (fun r =>
    mk (x r) (y r) (std_max (right r) (Vector2i.x point) - newX) (height r)) ;;;
  modify (fun r =>
    mk (x r) (y r) (width r) (std_max (bottom r) (Vector2i.y point) - newY)) ;;;
  modify (fun r => mk newX (y r) (width r) (height r)) ;;;
  modify (fun r => mk (x r) newY (width r) (height r)).

(** A coordinate or size of magnitude at most 2^29.  Sums and differences
    of three such values are representable. *)
Definition small (z : Z) : Prop := Z.abs z <= 536870912.

Definition bounded (r : t) : Prop :=
  small (x r) /\ small (y r) /\ small (width r) /\ small (height r).

End Recti.

(** ** Intervals of ray parameters *)



(** * Properties *)

(** ** Scalar comparisons and square roots *)

Lemma Rltb_true (a b : R) : a < b -> Rltb a b = true.
Proof.
  intros Hab. unfold Rltb.
  destruct (Rlt_dec a b); [reflexivity | contradiction].
Qed.

Lemma Rltb_false (a b : R) : b <= a -> Rltb a b = false.
Proof.
  intros Hba. unfold Rltb. destruct (Rlt_dec a b); [lra | reflexivity].
Qed.

Lemma Rleb_true (a b : R) : a <= b -> Rleb a b = true.
Proof.
  intros Hab. unfold Rleb.
  destruct (Rle_dec a b); [reflexivity | contradiction].
Qed.

Lemma Rleb_false (a b : R) : b < a -> Rleb a b = false.
Proof.
  intros Hba. unfold Rleb. destruct (Rle_dec a b); [lra | reflexivity].
Qed.

Lemma Rltb_lt (a b : R) : Rltb a b = true <-> a < b.
Proof.
  unfold Rltb. destruct (Rlt_dec a b); split; intros; auto; discriminate.
Qed.

Lemma Rltb_ge (a b : R) : Rltb a b = false <-> b <= a.
Proof.
  unfold Rltb. destruct (Rlt_dec a b); split; intros; try lra; auto.
  all: discriminate.
Qed.

Lemma Rleb_le (a b : R) : Rleb a b = true <-> a <= b.
Proof.
  unfold Rleb. destruct (Rle_dec a b); split; intros; auto; discriminate.
Qed.

Lemma Rleb_gt (a b : R) : Rleb a b = false <-> b < a.
Proof.
  unfold Rleb. destruct (Rle_dec a b); split; intros; try lra; auto.
  all: discriminate.
Qed.

Lemma sqrt_of_square (a b : R) : 0 <= b -> a = b * b -> sqrt a = b.
Proof. intros Hb ->. apply sqrt_square, Hb. Qed.

(** Turn every comparison of the goal into a case split on the reals. *)
Ltac split_comparisons :=
  repeat match goal with
  | |- context [Rltb ?a ?b] =>
      let Hc := fresh "Hc" in
      destruct (Rltb a b) eqn:Hc;
      [apply Rltb_lt in Hc | apply Rltb_ge in Hc]
  | |- context [Rleb ?a ?b] =>
      let Hc := fresh "Hc" in
      destruct (Rleb a b) eqn:Hc;
      [apply Rleb_le in Hc | apply Rleb_gt in Hc]
  end.

(** Linear arithmetic on goals and hypotheses that mention [Rabs] and
    machine epsilon. *)
Ltac abs_lra :=
  try pose proof epsilon_pos; try pose proof epsilon_lt_1;
  unfold within_epsilon, Rabs in *;
  repeat match goal with
  | |- context [Rcase_abs ?a] => destruct (Rcase_abs a)
  | H : context [Rcase_abs ?a] |- _ => destruct (Rcase_abs a)
  end;
  lra.

(** ** Mutating operations that throw *)

Lemma Vector2_div_assign_throw {L : numeric_limits} (v : Vector2.t) (s : R)
  (e : exn) :
  snd (Vector2.div_assign s v) = Throw e -> fst (Vector2.div_assign s v) = v.
Proof.
  unfold Vector2.div_assign.
  destruct (Rltb (Rabs s) epsilon); cbn; [reflexivity | discriminate].
Qed.

Lemma Vector3_div_assign_throw {L : numeric_limits} (v : Vector3.t) (s : R)
  (e : exn) :
  snd (Vector3.div_assign s v) = Throw e -> fst (Vector3.div_assign s v) = v.
Proof.
  unfold Vector3.div_assign.
  destruct (Rltb (Rabs s) epsilon); cbn; [reflexivity | discriminate].
Qed.

Lemma Vector2_normalize_throw {L : numeric_limits} (v : Vector2.t) (e : exn) :
  snd (Vector2.normalize v) = Throw e -> fst (Vector2.normalize v) = v.
Proof.
  unfold Vector2.normalize, mbind, gets.
  destruct (Rltb (Vector2.length v) epsilon); cbn; [reflexivity | ].
  apply Vector2_div_assign_throw.
Qed.

Lemma Vector3_normalize_throw {L : numeric_limits} (v : Vector3.t) (e : exn) :
  snd (Vector3.normalize v) = Throw e -> fst (Vector3.normalize v) = v.
Proof.
  unfold Vector3.normalize, mbind, gets.
  destruct (Rltb (Vector3.length v) epsilon); cbn; [reflexivity | ].
  apply Vector3_div_assign_throw.
Qed.

(** What [v /= s] leaves behind when it returns. *)
Lemma Vector3_div_assign_returns {L : numeric_limits} (v : Vector3.t) (s : R) :
  epsilon <= Rabs s ->
  Vector3.div_assign s v =
  (Vector3.mk (Vector3.x v / s) (Vector3.y v / s) (Vector3.z v / s), Ok tt).
Proof.
  intros Hs. unfold Vector3.div_assign. now rewrite (Rltb_false Hs).
Qed.

(** C8.  In-place operations that signal an error are atomic.  Whenever
    [v /= s] or [v.normalize()] throws, on a [Vector2] or a [Vector3], the
    vector is left exactly as it was before the call; and [v /= s] throws
    (invalid argument, the division by zero of the specification) as soon
    as [|s|] is below machine epsilon, [v.normalize()] (domain error, the
    degenerate normalization) as soon as the length of [v] is. *)
Theorem failed_in_place_operation_is_atomic {L : numeric_limits}
  (v2 : Vector2.t) (v3 : Vector3.t) (s : R) (e : exn) :
  (snd (Vector2.div_assign s v2) = Throw e ->
   fst (Vector2.div_assign s v2) = v2) /\
  (snd (Vector3.div_assign s v3) = Throw e ->
   fst (Vector3.div_assign s v3) = v3) /\
  (snd (Vector2.normalize v2) = Throw e -> fst (Vector2.normalize v2) = v2) /\
  (snd (Vector3.normalize v3) = Throw e -> fst (Vector3.normalize v3) = v3) /\
  (Rabs s < epsilon ->
   Vector2.div_assign s v2 = (v2, Throw invalid_argument) /\
   Vector3.div_assign s v3 = (v3, Throw invalid_argument)) /\
  (Vector2.length v2 < epsilon ->
   Vector2.normalize v2 = (v2, Throw domain_error)) /\
  (Vector3.length v3 < epsilon ->
   Vector3.normalize v3 = (v3, Throw domain_error)).
Proof.
  repeat match goal with |- _ /\ _ => split end.
  - apply Vector2_div_assign_throw.
  - apply Vector3_div_assign_throw.
  - apply Vector2_normalize_throw.
  - apply Vector3_normalize_throw.
  - intros Hs. unfold Vector2.div_assign, Vector3.div_assign.
    now rewrite (Rltb_true Hs).
  - intros Hlen. unfold Vector2.normalize, mbind, gets.
    now rewrite (Rltb_true Hlen).
  - intros Hlen. unfold Vector3.normalize, mbind, gets.
    now rewrite (Rltb_true Hlen).
Qed.

(** Dividing (1, 2) and (1, 2, 3) in place by zero, for [float]. *)
Lemma failed_in_place_operation_is_atomic_witness :
  Vector2.div_assign (L := float_limits) 0 (Vector2.mk 1 2) =
    (Vector2.mk 1 2, Throw invalid_argument) /\
  Vector3.div_assign (L := float_limits) 0 (Vector3.mk 1 2 3) =
    (Vector3.mk 1 2 3, Throw invalid_argument).
Proof.
  apply (failed_in_place_operation_is_atomic (L := float_limits)
           (Vector2.mk 1 2) (Vector3.mk 1 2 3) 0 invalid_argument).
  rewrite Rabs_R0. simpl. lra.
Defined.

(** ** Rectangles *)

(** Rectangles that touch along an edge do not intersect. *)
Lemma touching_rects_do_not_intersect (r1 r2 : Rect.t) :
  Rect.right r1 = Rect.x r2 -> Rect.intersects r1 r2 = false.
Proof.
  intros Htouch. unfold Rect.intersects.
  rewrite (Rleb_true (a := Rect.right r1) (b := Rect.x r2)) by lra.
  reflexivity.
Qed.

(** C9.  The intersection of two rectangles that do not intersect (touching
    edges included) is the zero rectangle, x = y = width = height = 0. *)
Theorem disjoint_intersection_is_zero_rect (r1 r2 : Rect.t) :
  Rect.intersects r1 r2 = false ->
  Rect.intersection r1 r2 = Rect.mk 0 0 0 0.
Proof.
  unfold Rect.intersects, Rect.intersection, Rect.default, std_max, std_min.
  intros Hdisjoint.
  apply negb_false_iff in Hdisjoint.
  repeat rewrite orb_true_iff in Hdisjoint.
  repeat rewrite Rleb_le in Hdisjoint.
  split_comparisons; cbn; try reflexivity; exfalso; lra.
Qed.

(** The unit square at the origin and the unit square to its right, which
    share an edge. *)
Lemma disjoint_intersection_is_zero_rect_witness :
  Rect.intersection (Rect.mk 0 0 1 1) (Rect.mk 1 0 1 1) = Rect.mk 0 0 0 0.
Proof.
  apply (disjoint_intersection_is_zero_rect (Rect.mk 0 0 1 1) (Rect.mk 1 0 1 1)).
  unfold Rect.intersects, Rect.right; cbn.
  rewrite (Rleb_true (a := 0 + 1) (b := 1)) by lra. reflexivity.
Defined.

(** ** Spheres *)

(** The two tests read the radius through [radius * radius] only. *)
Lemma sphere_tests_depend_on_squared_radius (c : Vector3.t) (r1 r2 : R)
  (p : Vector3.t) (ray : Ray.t) (t0 : R) :
  r1 * r1 = r2 * r2 ->
  Sphere.contains (Sphere.mk c r1) p = Sphere.contains (Sphere.mk c r2) p /\
  Sphere.intersects (Sphere.mk c r1) ray t0 =
  Sphere.intersects (Sphere.mk c r2) ray t0.
Proof.
  intros Hsq. unfold Sphere.contains, Sphere.intersects. cbn.
  rewrite Hsq. split; reflexivity.
Qed.

(** C10.  [Sphere(c, r)] and [Sphere(c, -r)] give the same answer to
    [contains(p)] and to [intersects(ray, t)], the reported [t] included:
    both tests depend on the radius only through its square. *)
Theorem sphere_radius_sign_is_irrelevant (c : Vector3.t) (r : R)
  (p : Vector3.t) (ray : Ray.t) (t0 : R) :
  Sphere.contains (Sphere.mk c r) p = Sphere.contains (Sphere.mk c (- r)) p /\
  Sphere.intersects (Sphere.mk c r) ray t0 =
  Sphere.intersects (Sphere.mk c (- r)) ray t0.
Proof.
  apply sphere_tests_depend_on_squared_radius. ring.
Qed.

(** ** Normalization *)

(** Decide each comparison of the goal by arithmetic. *)
Ltac eval_comparisons :=
  repeat match goal with
  | |- context [Rltb ?a ?b] =>
      first [ rewrite (@Rltb_true a b) by abs_lra
            | rewrite (@Rltb_false a b) by abs_lra ]
  | |- context [Rleb ?a ?b] =>
      first [ rewrite (@Rleb_true a b) by abs_lra
            | rewrite (@Rleb_false a b) by abs_lra ]
  end.

Lemma Vector3_length_nonneg (v : Vector3.t) : 0 <= Vector3.length v.
Proof. apply sqrt_pos. Qed.

(** [normalized()] divides by the length whenever the length is not below
    machine epsilon. *)
Lemma Vector3_normalized_returns {L : numeric_limits} (v : Vector3.t) :
  epsilon <= Vector3.length v ->
  Vector3.normalized v =
  Ok (Vector3.mk (Vector3.x v / Vector3.length v)
                 (Vector3.y v / Vector3.length v)
                 (Vector3.z v / Vector3.length v)).
Proof.
  intros Hlen. unfold Vector3.normalized, Vector3.div.
  rewrite (Rltb_false Hlen).
  rewrite Rltb_false; [reflexivity | ].
  rewrite Rabs_pos_eq; [exact Hlen | apply Vector3_length_nonneg].
Qed.

(** A vector of length exactly one is its own normalization, up to the
    divisions by one the code performs. *)
Lemma Vector3_normalized_unit {L : numeric_limits} (v : Vector3.t) :
  Vector3.lengthSquared v = 1 ->
  Vector3.normalized v =
  Ok (Vector3.mk (Vector3.x v / 1) (Vector3.y v / 1) (Vector3.z v / 1)).
Proof.
  intros Hunit.
  assert (Hlen : Vector3.length v = 1).
  { unfold Vector3.length. rewrite Hunit. exact sqrt_1. }
  rewrite Vector3_normalized_returns; rewrite Hlen.
  - reflexivity.
  - pose proof epsilon_lt_1. lra.
Qed.

(** ** Ray against plane *)

(** C6.  [Plane::intersects(ray, t)] returns false when
    [|normal . direction|] is below machine epsilon; otherwise it stores
    [t = -(normal . origin + distance) / (normal . direction)] and returns
    true exactly when [t >= 0].  The ray from (0,5,0) in direction
    (0,-1,0) hits the plane of normal (0,1,0) and distance 0 at [t = 5];
    with direction (0,1,0) the answer is false. *)
Theorem plane_intersects_forward_hits_only {L : numeric_limits}
  (p : Plane.t) (ray : Ray.t) (t0 : R) :
  let denom := Vector3.dot (Plane.normal p) (Ray.direction ray) in
  let t := - (Vector3.dot (Plane.normal p) (Ray.origin ray) + Plane.distance p)
           / denom in
  (Rabs denom < epsilon -> Plane.intersects p ray t0 = (false, t0)) /\
  (epsilon <= Rabs denom ->
   snd (Plane.intersects p ray t0) = t /\
   (fst (Plane.intersects p ray t0) = true <-> 0 <= t)) /\
  (pl <- Plane.of_normal_distance (Vector3.mk 0 1 0) 0 ;;
   r <- Ray.make (Vector3.mk 0 5 0) (Vector3.mk 0 (-1) 0) ;;
   Ok (Plane.intersects pl r t0)) = Ok (true, 5) /\
  (pl <- Plane.of_normal_distance (Vector3.mk 0 1 0) 0 ;;
   r <- Ray.make (Vector3.mk 0 5 0) (Vector3.mk 0 1 0) ;;
   Ok (fst (Plane.intersects pl r t0))) = Ok false.
Proof.
  intros denom t.
  assert (Hup : Vector3.lengthSquared (Vector3.mk 0 1 0) = 1)
    by (unfold Vector3.lengthSquared; cbn; ring).
  assert (Hdown : Vector3.lengthSquared (Vector3.mk 0 (-1) 0) = 1)
    by (unfold Vector3.lengthSquared; cbn; ring).
  repeat match goal with |- _ /\ _ => split end.
  - intros Hpar. unfold Plane.intersects. fold denom.
    now rewrite (Rltb_true Hpar).
  - intros Hcross. unfold Plane.intersects. fold denom.
    rewrite (Rltb_false Hcross). cbn. fold t.
    split; [reflexivity | apply Rleb_le].
  - unfold Plane.of_normal_distance, Ray.make.
    rewrite (Vector3_normalized_unit Hup).
    rewrite (Vector3_normalized_unit Hdown).
    cbn. unfold Plane.intersects, Vector3.dot. cbn.
    eval_comparisons. do 2 f_equal. field.
  - unfold Plane.of_normal_distance, Ray.make.
    rewrite (Vector3_normalized_unit Hup).
    cbn. unfold Plane.intersects, Vector3.dot. cbn.
    eval_comparisons. reflexivity.
Qed.

(** The plane y = 0 and the downward ray from (0,5,0), for [float]. *)
Lemma plane_intersects_forward_hits_only_witness :
  Plane.intersects (L := float_limits)
    (Plane.mk (Vector3.mk 0 1 0) 0)
    (Ray.mk (Vector3.mk 0 5 0) (Vector3.mk 0 (-1) 0)) 0 = (true, 5).
Proof.
  destruct (plane_intersects_forward_hits_only (L := float_limits)
              (Plane.mk (Vector3.mk 0 1 0) 0)
              (Ray.mk (Vector3.mk 0 5 0) (Vector3.mk 0 (-1) 0)) 0)
    as (_ & Hcross & _).
  assert (Hdenom : @epsilon float_limits <=
    Rabs (Vector3.dot (Plane.normal (Plane.mk (Vector3.mk 0 1 0) 0))
            (Ray.direction (Ray.mk (Vector3.mk 0 5 0) (Vector3.mk 0 (-1) 0))))).
  { unfold Vector3.dot; cbn. abs_lra. }
  destruct (Hcross Hdenom) as (Ht & Hhit).
  rewrite (surjective_pairing (Plane.intersects _ _ _)).
  rewrite Ht. f_equal.
  - apply Hhit. unfold Vector3.dot; cbn. lra.
  - unfold Vector3.dot; cbn. field.
Defined.

(** ** Ray against box *)

(** C7.  The ray from (-5,0,0) in direction (1,0,0) against the box from
    (-1,-1,-1) to (1,1,1): [intersects] returns true with [tMin = 4] and
    [tMax = 6].  On the y and z axes the direction component is below
    machine epsilon, and the iteration only checks that the origin lies
    within the slab, leaving [tMin] and [tMax] as they are. *)
Theorem aabb_intersects_example {L : numeric_limits} :
  let box := AABB.mk (Vector3.mk (-1) (-1) (-1)) (Vector3.mk 1 1 1) in
  (ray <- Ray.make (Vector3.mk (-5) 0 0) (Vector3.mk 1 0 0) ;;
   AABB.intersects box ray) = Ok (true, finite 4, finite 6) /\
  (forall (i : nat) (st : ExtR * ExtR), i = 1%nat \/ i = 2%nat ->
   (ray <- Ray.make (Vector3.mk (-5) 0 0) (Vector3.mk 1 0 0) ;;
    dir_i <- Vector3.index (Ray.direction ray) i ;;
    Ok (Rltb (Rabs dir_i) epsilon)) = Ok true /\
   (ray <- Ray.make (Vector3.mk (-5) 0 0) (Vector3.mk 1 0 0) ;;
    AABB.slab box ray i st) = Ok (Next st)).
Proof.
  intros box.
  assert (Hright : Vector3.lengthSquared (Vector3.mk 1 0 0) = 1)
    by (unfold Vector3.lengthSquared; cbn; ring).
  unfold Ray.make. rewrite (Vector3_normalized_unit Hright). cbn.
  split.
  - unfold AABB.intersects, AABB.slab, box. cbn.
    eval_comparisons. cbn. eval_comparisons. cbn.
    replace ((-1 - -5) / (1 / 1)) with 4 by field.
    replace ((1 - -5) / (1 / 1)) with 6 by field.
    reflexivity.
  - intros i [tMin tMax] [-> | ->]; unfold AABB.slab, box; cbn;
      eval_comparisons; split; reflexivity.
Qed.

(** ** Plane through a point *)

(** The signed distance of [point] to the plane [Plane(normal, point)]
    builds: the stored normal has been divided by its length, the stored
    distance has not. *)
Lemma plane_of_normal_point_distance {L : numeric_limits}
  (normal point : Vector3.t) :
  epsilon <= Vector3.length normal ->
  (pl <- Plane.of_normal_point normal point ;;
   Ok (Plane.distanceToPoint pl point)) =
  Ok (Vector3.dot (Vector3.mk (Vector3.x normal / Vector3.length normal)
                              (Vector3.y normal / Vector3.length normal)
                              (Vector3.z normal / Vector3.length normal))
                  point
      + - Vector3.dot normal point).
Proof.
  intros Hlen. unfold Plane.of_normal_point.
  rewrite (Vector3_normalized_returns _ Hlen). reflexivity.
Qed.

(** With a normal of length one the plane does contain the point. *)
Lemma plane_of_unit_normal_contains_point {L : numeric_limits}
  (normal point : Vector3.t) :
  Vector3.lengthSquared normal = 1 ->
  (pl <- Plane.of_normal_point normal point ;;
   Ok (Plane.distanceToPoint pl point)) = Ok 0.
Proof.
  intros Hunit. unfold Plane.of_normal_point.
  rewrite (Vector3_normalized_unit Hunit). cbn.
  unfold Plane.distanceToPoint, Vector3.dot. cbn. f_equal. field.
Qed.

(** C3, on the code.  [Plane(n, p)] with [n = (0,2,0)], a vector of
    length 2, and [p = (0,1,0)] stores the normal (0,1,0) and the distance
    [-2]; the distance of [p] to that plane is [-1], which is not 0 within
    epsilon.  The plane the constructor builds does not contain the point
    it was given. *)
Theorem plane_of_normal_point_misses_point {L : numeric_limits} :
  let n := Vector3.mk 0 2 0 in
  let p := Vector3.mk 0 1 0 in
  epsilon <= Vector3.length n /\
  (pl <- Plane.of_normal_point n p ;; Ok (Plane.distance pl)) = Ok (-2) /\
  (pl <- Plane.of_normal_point n p ;; Ok (Plane.distanceToPoint pl p))
  = Ok (-1) /\
  ~ within_epsilon (-1) 0.
Proof.
  intros n p.
  assert (Hlen : Vector3.length n = 2).
  { apply sqrt_of_square; [lra | unfold n, Vector3.lengthSquared; cbn; ring]. }
  assert (Heps : epsilon <= Vector3.length n).
  { rewrite Hlen. pose proof epsilon_lt_1. lra. }
  repeat match goal with |- _ /\ _ => split end.
  - exact Heps.
  - unfold Plane.of_normal_point.
    rewrite (Vector3_normalized_returns _ Heps). cbn.
    unfold Vector3.dot; cbn. f_equal. ring.
  - rewrite (plane_of_normal_point_distance _ _ Heps). rewrite Hlen.
    unfold Vector3.dot; cbn. f_equal. field.
  - intros Hclose. abs_lra.
Qed.

(** ** Matrix inverse *)


(** Outside its first column, the matrix [inverse()] returns is the
    identity matrix scaled by [1 / determinant]. *)
Lemma inverse_leaves_three_columns (L : numeric_limits) (m inv : Matrix4x4.t)
  (i j : nat) :
  Matrix4x4.inverse m = Ok inv ->
  (i < 4)%nat -> (1 <= j < 4)%nat ->
  Matrix4x4.get inv i j =
  Matrix4x4.get Matrix4x4.identity i j * (1 / Matrix4x4.determinant m).
Proof.
  unfold Matrix4x4.inverse. cbn.
  match goal with |- context [Rltb (Rabs ?d) _] =>
    replace d with (Matrix4x4.determinant m)
      by (unfold Matrix4x4.determinant, Matrix4x4.get; cbn; ring)
  end.
  destruct (Rltb (Rabs (Matrix4x4.determinant m)) epsilon); [discriminate | ].
  intros Hinv Hi Hj. injection Hinv as <-.
  destruct i as [|[|[|[|i]]]]; try lia;
  destruct j as [|[|[|[|j]]]]; try lia; reflexivity.
Qed.

(** C1, on the code.  For the translation by (1,0,0), whose determinant
    is 1, [inverse()] returns the identity matrix, so that
    [M * M.inverse()] is [M] itself: its entry (0,3) is 1 where the
    identity has 0.  Only the first column of the adjugate is computed. *)
Theorem inverse_of_translation_is_not_inverse {L : numeric_limits} :
  let M := Matrix4x4.translation (Vector3.mk 1 0 0) in
  Matrix4x4.determinant M = 1 /\
  Matrix4x4.inverse M = Ok Matrix4x4.identity /\
  (inv <- Matrix4x4.inverse M ;; Ok (Matrix4x4.mul M inv)) = Ok M /\
  Matrix4x4.get M 0 3 = 1 /\
  Matrix4x4.get Matrix4x4.identity 0 3 = 0 /\
  ~ Matrix4x4.close M Matrix4x4.identity.
Proof.
  intros M.
  assert (Hinv : Matrix4x4.inverse M = Ok Matrix4x4.identity).
  { unfold Matrix4x4.inverse, M, Matrix4x4.translation. cbn.
    eval_comparisons. unfold Matrix4x4.identity, Matrix4x4.default.
    repeat f_equal; field. }
  repeat match goal with |- _ /\ _ => split end.
  - unfold Matrix4x4.determinant, M, Matrix4x4.translation. cbn. ring.
  - exact Hinv.
  - rewrite Hinv. cbn. repeat f_equal; ring.
  - reflexivity.
  - reflexivity.
  - intros Hclose.
    specialize (Hclose 0%nat 3%nat ltac:(lia) ltac:(lia)).
    cbn in Hclose. abs_lra.
Qed.

(** ** Frustum planes *)

Lemma exec_div_assign_length {L : numeric_limits} (v : Vector3.t) :
  epsilon <= Vector3.length v ->
  exec (Vector3.div_assign (Vector3.length v)) v =
  Ok (Vector3.mk (Vector3.x v / Vector3.length v)
                 (Vector3.y v / Vector3.length v)
                 (Vector3.z v / Vector3.length v)).
Proof.
  intros Hlen. unfold exec.
  rewrite Vector3_div_assign_returns; [reflexivity | ].
  rewrite Rabs_pos_eq; [exact Hlen | apply Vector3_length_nonneg].
Qed.

Lemma plane_middle (before after : list Plane.t) (p : Plane.t) :
  Frustum.plane (before ++ p :: after) (length before) = p.
Proof.
  unfold Frustum.plane. induction before as [|q before IH]; cbn; auto.
Qed.

Lemma set_plane_middle (before after : list Plane.t) (p q : Plane.t) :
  Frustum.set_plane (before ++ p :: after) (length before) q =
  before ++ q :: after.
Proof.
  induction before as [|r before IH]; cbn; [reflexivity | now rewrite IH].
Qed.

(** The first loop overwrites the three components of each normal and
    leaves the distances alone. *)
Lemma normals_loop (vp : Matrix4x4.t) (p0 p1 p2 p3 p4 p5 : Plane.t) :
  for_r 3 (Frustum.normals_body vp) [p0; p1; p2; p3; p4; p5] =
  Ok (map (fun kp => Plane.mk (Frustum.raw_normal vp (fst kp))
                              (Plane.distance (snd kp)))
          (combine (seq 0 6) [p0; p1; p2; p3; p4; p5])).
Proof. reflexivity. Qed.

(** One iteration of the second loop, on the plane that follows
    [before]. *)
Lemma normalize_step {L : numeric_limits} (vp : Matrix4x4.t)
  (before after : list Plane.t) (n : Vector3.t) (d : R) :
  epsilon <= Vector3.length n ->
  Frustum.normalize_body vp (length before)
    (before ++ Plane.mk n d :: after) =
  Ok (before ++
      Plane.mk (Vector3.mk (Vector3.x n / Vector3.length n)
                           (Vector3.y n / Vector3.length n)
                           (Vector3.z n / Vector3.length n))
               ((Matrix4x4.get vp 3 3 -
                 Matrix4x4.get vp 3 (length before / 2))
                / Vector3.length n)
      :: after).
Proof.
  intros Hlen.
  unfold Frustum.normalize_body, Frustum.set_distance.
  rewrite plane_middle, set_plane_middle, plane_middle.
  cbn [Plane.normal Plane.distance].
  rewrite (exec_div_assign_length _ Hlen).
  cbn [bind].
  rewrite set_plane_middle, plane_middle, set_plane_middle.
  reflexivity.
Qed.

(** Rewrite the next iteration of the second loop with [normalize_step],
    [before] being the planes already normalized. *)
Tactic Notation "normalize_next" constr(vp) uconstr(before) constr(Hn) :=
  let E := fresh "E" in
  epose proof (normalize_step vp before _ _ _ Hn) as E;
  cbn [length app] in E; rewrite E; clear E; cbn [bind].

(** What [updatePlanes] computes, for every matrix whose six raw normals
    are long enough to be normalized: plane [k] gets the normalized raw
    normal and the distance [(VP(3,3) - VP(3, k / 2)) / length]. *)
Lemma updatePlanes_returns {L : numeric_limits} (f : Frustum.t)
  (vp : Matrix4x4.t) :
  length f = 6%nat ->
  (forall k : nat, (k < 6)%nat ->
     epsilon <= Vector3.length (Frustum.raw_normal vp k)) ->
  Frustum.updatePlanes f vp = Ok (map (Frustum.updated_plane vp) (seq 0 6)).
Proof.
  intros Hsize Hlong.
  destruct f as [|p0 [|p1 [|p2 [|p3 [|p4 [|p5 [|p6 f]]]]]]]; try discriminate.
  unfold Frustum.updatePlanes. rewrite normals_loop.
  cbn [bind map combine seq fst snd].
  unfold for_r. cbn [seq fold_left bind].
  normalize_next vp (@nil Plane.t) (Hlong 0%nat ltac:(lia)).
  normalize_next vp [_ : Plane.t] (Hlong 1%nat ltac:(lia)).
  normalize_next vp [_ : Plane.t; _] (Hlong 2%nat ltac:(lia)).
  normalize_next vp [_ : Plane.t; _; _] (Hlong 3%nat ltac:(lia)).
  normalize_next vp [_ : Plane.t; _; _; _] (Hlong 4%nat ltac:(lia)).
  normalize_next vp [_ : Plane.t; _; _; _; _] (Hlong 5%nat ltac:(lia)).
  reflexivity.
Qed.

(** The example matrix is the one [perspective] builds. *)
Lemma perspective_example_is_perspective :
  Matrix4x4.perspective (2 * atan (1 / 4)) 1 1 3 = Frustum.perspective_example.
Proof.
  unfold Matrix4x4.perspective.
  replace (2 * atan (1 / 4) / 2) with (atan (1 / 4)) by field.
  rewrite tan_atan. cbn. repeat f_equal; field.
Qed.

(** The lengths of the six normals the first loop builds from it. *)
Lemma perspective_example_lengths (k : nat) :
  (k < 6)%nat ->
  Vector3.length (Frustum.raw_normal Frustum.perspective_example k) =
  nth k [5; 1; 5; 5; 5; 5] 0.
Proof.
  intros Hk.
  destruct k as [|[|[|[|[|[|k]]]]]]; try lia;
    (apply sqrt_of_square;
     [cbn; lra
     | unfold Vector3.lengthSquared, Frustum.raw_normal, Frustum.column_plus,
         Frustum.column_minus, Matrix4x4.get; cbn; ring]).
Qed.

(** C2, on the code.  For the perspective matrix above [updatePlanes]
    returns, and the six distances it stores are
    [(VP(3,3) - VP(3, k / 2)) / length], that is 0, 0, 0, 0, 1/5, 1/5.  The
    distance the specification gives plane 0, [VP(3,3) + VP(3,2)] over the
    length of its normal, is [-1/5], and that of plane 1,
    [VP(3,3) - VP(3,2)] over the length, is 1, which is not the stored 0
    within epsilon: the second loop always subtracts, and reads column
    [k / 2] where the normal was built from column [normal_column k]. *)
Theorem updatePlanes_distance_differs_from_extraction {L : numeric_limits} :
  let vp := Frustum.perspective_example in
  (f <- Frustum.make vp ;; Ok (map Plane.distance f)) =
    Ok [0; 0; 0; 0; 1 / 5; 1 / 5] /\
  map (fun k => Frustum.extraction_distance vp k
                / Vector3.length (Frustum.raw_normal vp k)) (seq 0 6) =
    [-1 / 5; 1; 0; 0; 0; 0] /\
  ~ within_epsilon 0 1.
Proof.
  intros vp.
  assert (Hlong : forall k : nat, (k < 6)%nat ->
            epsilon <= Vector3.length (Frustum.raw_normal vp k)).
  { intros k Hk. unfold vp. rewrite (perspective_example_lengths Hk).
    pose proof epsilon_lt_1.
    destruct k as [|[|[|[|[|[|k]]]]]]; try lia; cbn; lra. }
  repeat match goal with |- _ /\ _ => split end.
  - unfold Frustum.make.
    rewrite (updatePlanes_returns Frustum.default vp eq_refl Hlong).
    cbn [bind map seq Frustum.updated_plane Plane.distance]. unfold vp.
    rewrite !perspective_example_lengths by lia.
    cbn. repeat f_equal; field.
  - cbn [map seq]. unfold vp.
    rewrite !perspective_example_lengths by lia.
    cbn. repeat f_equal; field.
  - intros Hclose. abs_lra.
Qed.

(** ** Quaternion slerp *)

Lemma Quaternion_normalized_unit {L : numeric_limits} (q : Quaternion.t) :
  Quaternion.unit q ->
  Quaternion.normalized q =
  Ok (Quaternion.mk (Quaternion.w q / 1) (Quaternion.x q / 1)
                    (Quaternion.y q / 1) (Quaternion.z q / 1)).
Proof.
  intros Hunit. unfold Quaternion.normalized, Quaternion.magnitude.
  rewrite Hunit, sqrt_1.
  rewrite Rltb_false; [reflexivity | ].
  pose proof epsilon_lt_1. lra.
Qed.

(** Above the 0.9995 threshold [slerp(q, q, t)] is [q.normalized()],
    whatever [t]. *)
Lemma slerp_self_linear_branch {L : numeric_limits} (q : Quaternion.t)
  (s : R) :
  let dot := Quaternion.w q * Quaternion.w q + Quaternion.x q * Quaternion.x q
             + Quaternion.y q * Quaternion.y q
             + Quaternion.z q * Quaternion.z q in
  9995 / 10000 < dot ->
  Quaternion.slerp q q s =
  Quaternion.normalized
    (Quaternion.mk
       (Quaternion.w q + s * (Quaternion.w q - Quaternion.w q))
       (Quaternion.x q + s * (Quaternion.x q - Quaternion.x q))
       (Quaternion.y q + s * (Quaternion.y q - Quaternion.y q))
       (Quaternion.z q + s * (Quaternion.z q - Quaternion.z q))).
Proof.
  intros dot Hdot. unfold Quaternion.slerp. fold dot.
  rewrite (Rltb_false (a := dot) (b := 0)) by lra.
  now rewrite (Rltb_true Hdot).
Qed.

(** C4, as amended.  For every unit quaternion [q] and every
    interpolation parameter [t], [slerp(q, q, t)] returns [q]. *)
Theorem slerp_unit_self_returns_self {L : numeric_limits}
  (q : Quaternion.t) (s : R) :
  Quaternion.unit q -> Quaternion.slerp q q s = Ok q.
Proof.
  intros Hunit.
  rewrite slerp_self_linear_branch by (rewrite Hunit; lra).
  rewrite Quaternion_normalized_unit.
  - destruct q as [qw qx qy qz]. cbn. f_equal. f_equal; field.
  - unfold Quaternion.unit in *. cbn. rewrite <- Hunit. ring.
Qed.

(** The identity rotation, halfway, for [float]. *)
Lemma slerp_unit_self_returns_self_witness :
  Quaternion.slerp (L := float_limits)
    (Quaternion.mk 1 0 0 0) (Quaternion.mk 1 0 0 0) (1 / 2) =
  Ok (Quaternion.mk 1 0 0 0).
Proof.
  apply (slerp_unit_self_returns_self (L := float_limits)).
  unfold Quaternion.unit. cbn. ring.
Defined.

(** C4, as stated, fails: [q = (2, 0, 0, 0)] has dot product 4 with
    itself, so [slerp(q, q, 0)] takes the linear branch and returns the
    normalized (1, 0, 0, 0), whose first component is 1 away from that of
    [q]. *)
Lemma slerp_self_counterexample :
  ~ Quaternion.slerp_self_returns_self float_limits.
Proof.
  intros Hclaim.
  destruct (Hclaim (Quaternion.mk 2 0 0 0) 0) as (r & Hr & Hw & _).
  rewrite slerp_self_linear_branch in Hr by (cbn; lra).
  unfold Quaternion.normalized, Quaternion.magnitude in Hr. cbn in Hr.
  rewrite (sqrt_of_square (a := (2 + 0 * (2 - 2)) * (2 + 0 * (2 - 2))
                                + (0 + 0 * (0 - 0)) * (0 + 0 * (0 - 0))
                                + (0 + 0 * (0 - 0)) * (0 + 0 * (0 - 0))
                                + (0 + 0 * (0 - 0)) * (0 + 0 * (0 - 0)))
                          (b := 2)) in Hr by lra.
  rewrite Rltb_false in Hr
    by (pose proof (@epsilon_lt_1 float_limits); lra).
  injection Hr as <-. cbn in Hw.
  pose proof (@epsilon_lt_1 float_limits).
  unfold within_epsilon, Rabs in Hw.
  destruct (Rcase_abs _) in Hw; lra.
Qed.

(** ** Vector slerp *)












(** * Further properties of the library *)

(** ** Vectors *)


Lemma Vector3_lengthSquared_nonneg (v : Vector3.t) :
  0 <= Vector3.lengthSquared v.
Proof. unfold Vector3.lengthSquared. nra. Qed.


Lemma Vector3_length_squared (v : Vector3.t) :
  Vector3.length v * Vector3.length v = Vector3.lengthSquared v.
Proof. apply sqrt_sqrt, Vector3_lengthSquared_nonneg. Qed.







(** X3.  The cross product is orthogonal to both operands, changes sign
    when the operands are swapped, and its squared length is
    [|a|^2 |b|^2 - (a . b)^2]. *)
Theorem cross_product_orthogonal (a b : Vector3.t) :
  Vector3.dot (Vector3.cross a b) a = 0 /\
  Vector3.dot (Vector3.cross a b) b = 0 /\
  Vector3.cross b a = Vector3.scale (Vector3.cross a b) (-1) /\
  Vector3.lengthSquared (Vector3.cross a b) =
  Vector3.lengthSquared a * Vector3.lengthSquared b
  - Vector3.dot a b * Vector3.dot a b.
Proof.
  unfold Vector3.dot, Vector3.cross, Vector3.scale, Vector3.lengthSquared.
  cbn. repeat split; try ring. f_equal; ring.
Qed.

(** X4.  Reflection about a unit normal keeps the length, reverses the
    component along the normal, and undoes itself. *)
Theorem reflect_is_isometric_involution (v n : Vector3.t) :
  Vector3.lengthSquared n = 1 ->
  Vector3.lengthSquared (Vector3.reflect v n) = Vector3.lengthSquared v /\
  Vector3.dot (Vector3.reflect v n) n = - Vector3.dot v n /\
  Vector3.reflect (Vector3.reflect v n) n = v.
Proof.
  intros Hunit. destruct v as [vx vy vz], n as [nx ny nz].
  unfold Vector3.reflect, Vector3.lengthSquared, Vector3.dot, Vector3.sub,
    Vector3.scale in *. cbn in *.
  assert (H0 : nx * nx + ny * ny + nz * nz - 1 = 0) by lra.
  set (d := vx * nx + vy * ny + vz * nz).
  repeat split.
  - transitivity (vx * vx + vy * vy + vz * vz
                  + 4 * d * d * (nx * nx + ny * ny + nz * nz - 1));
      [unfold d; ring | rewrite H0; ring].
  - transitivity (- d - 2 * d * (nx * nx + ny * ny + nz * nz - 1));
      [unfold d; ring | rewrite H0; ring].
  - f_equal.
    + transitivity (vx + 4 * d * nx * (nx * nx + ny * ny + nz * nz - 1));
        [unfold d; ring | rewrite H0; ring].
    + transitivity (vy + 4 * d * ny * (nx * nx + ny * ny + nz * nz - 1));
        [unfold d; ring | rewrite H0; ring].
    + transitivity (vz + 4 * d * nz * (nx * nx + ny * ny + nz * nz - 1));
        [unfold d; ring | rewrite H0; ring].
Qed.

(** Reflecting (1, 2, 3) about the y axis. *)
Lemma reflect_is_isometric_involution_witness :
  Vector3.reflect (Vector3.reflect (Vector3.mk 1 2 3) (Vector3.mk 0 1 0))
                  (Vector3.mk 0 1 0) = Vector3.mk 1 2 3.
Proof.
  apply (@reflect_is_isometric_involution (Vector3.mk 1 2 3)
           (Vector3.mk 0 1 0)).
  unfold Vector3.lengthSquared. cbn. ring.
Defined.



(** X6.  [operator==] compares within machine epsilon: it is reflexive and
    symmetric, but not transitive. *)
Theorem Vector3_eqb_not_transitive {L : numeric_limits} :
  (forall a : Vector3.t, Vector3.eqb a a = true) /\
  (forall a b : Vector3.t, Vector3.eqb a b = Vector3.eqb b a) /\
  (exists a b c : Vector3.t,
     Vector3.eqb a b = true /\ Vector3.eqb b c = true /\
     Vector3.eqb a c = false).
Proof.
  pose proof epsilon_pos as Hpos.
  repeat match goal with |- _ /\ _ => split end.
  - intros a. unfold Vector3.eqb.
    rewrite !Rltb_true; [reflexivity | | | ];
      (replace (_ - _) with 0 by ring; rewrite Rabs_R0; exact Hpos).
  - intros a b. unfold Vector3.eqb.
    rewrite (Rabs_minus_sym (Vector3.x a)), (Rabs_minus_sym (Vector3.y a)),
      (Rabs_minus_sym (Vector3.z a)). reflexivity.
  - exists (Vector3.mk 0 0 0), (Vector3.mk (epsilon * (3 / 5)) 0 0),
      (Vector3.mk (epsilon * (6 / 5)) 0 0).
    unfold Vector3.eqb. cbn.
    repeat split; eval_comparisons; reflexivity.
Qed.

(** ** Integer rectangles *)

(** Split every integer comparison of the goal into its two cases. *)
Ltac split_int_comparisons :=
  repeat match goal with
  | |- context [(?a <? ?b)%Z] => destruct (Z.ltb_spec a b)
  | |- context [(?a <=? ?b)%Z] => destruct (Z.leb_spec a b)
  end.

Lemma Recti_contains_iff (r : Recti.t) (p : Vector2i.t) :
  Recti.contains r p = true <->
  (Recti.x r <= Vector2i.x p < Recti.right r /\
   Recti.y r <= Vector2i.y p < Recti.bottom r)%Z.
Proof.
  unfold Recti.contains.
  rewrite !andb_true_iff, !Z.leb_le, !Z.ltb_lt. tauto.
Qed.

(** X7.  For [Recti] with coordinates and sizes of magnitude at most
    2^29, every value [intersection] computes is representable, and a
    point is contained in [r1.intersection(r2)] exactly when it is
    contained in both rectangles; in particular the zero rectangle
    returned for disjoint rectangles contains no point. *)
Theorem intersection_contains_common_points (r1 r2 : Recti.t) :
  Recti.bounded r1 -> Recti.bounded r2 ->
  Recti.representable (Recti.right r1) /\
  Recti.representable (Recti.bottom r1) /\
  Recti.representable (Recti.right r2) /\
  Recti.representable (Recti.bottom r2) /\
  Recti.representable (Recti.width (Recti.intersection r1 r2)) /\
  Recti.representable (Recti.height (Recti.intersection r1 r2)) /\
  Recti.representable (Recti.right (Recti.intersection r1 r2)) /\
  Recti.representable (Recti.bottom (Recti.intersection r1 r2)) /\
  forall p : Vector2i.t,
    Recti.contains (Recti.intersection r1 r2) p =
    Recti.contains r1 p && Recti.contains r2 p.
Proof.
  destruct r1 as [x1 y1 w1 h1], r2 as [x2 y2 w2 h2].
  unfold Recti.bounded, Recti.small. cbn [Recti.x Recti.y Recti.width Recti.height].
  intros (? & ? & ? & ?) (? & ? & ? & ?).
  repeat match goal with |- _ /\ _ => split end;
    try (intros [px py]; apply eq_true_iff_eq;
         rewrite andb_true_iff, !Recti_contains_iff);
    unfold Recti.representable, Recti.INT_MIN, Recti.INT_MAX,
      Recti.intersection, Recti.std_max, Recti.std_min, Recti.right,
      Recti.bottom, Recti.default;
    cbn [Recti.x Recti.y Recti.width Recti.height Vector2i.x Vector2i.y];
    split_int_comparisons;
    cbn [Recti.x Recti.y Recti.width Recti.height andb]; lia.
Qed.

(** The squares from (0, 0) to (4, 4) and from (2, 2) to (6, 6) share the
    point (3, 3). *)
Lemma intersection_contains_common_points_witness :
  Recti.contains
    (Recti.intersection (Recti.mk 0 0 4 4) (Recti.mk 2 2 4 4))
    (Vector2i.mk 3 3) = true.
Proof.
  assert (H1 : Recti.bounded (Recti.mk 0 0 4 4))
    by (unfold Recti.bounded, Recti.small; cbn; lia).
  assert (H2 : Recti.bounded (Recti.mk 2 2 4 4))
    by (unfold Recti.bounded, Recti.small; cbn; lia).
  destruct (@intersection_contains_common_points _ _ H1 H2)
    as (_ & _ & _ & _ & _ & _ & _ & _ & Hboth).
  rewrite Hboth. reflexivity.
Defined.

(** X8.  For a [Recti] and a point with coordinates and sizes of
    magnitude at most 2^29, every value [expand(point)] computes is
    representable; it moves the left and top edges to the smaller of the
    old edge and the point, and the right and bottom edges to the larger.
    Every point the rectangle contained is still contained; the point
    itself is contained afterwards only when it was strictly left of the
    old right edge and strictly above the old bottom edge, since those
    two edges are excluded. *)
Theorem expand_grows_but_excludes_far_edges (r : Recti.t) (p : Vector2i.t) :
  Recti.bounded r ->
  Recti.small (Vector2i.x p) -> Recti.small (Vector2i.y p) ->
  let r' := fst (Recti.expand p r) in
  snd (Recti.expand p r) = Ok tt /\
  Recti.representable (Recti.right r) /\
  Recti.representable (Recti.bottom r) /\
  Recti.representable (Recti.width r') /\
  Recti.representable (Recti.height r') /\
  Recti.representable (Recti.right r') /\
  Recti.representable (Recti.bottom r') /\
  Recti.x r' = Recti.std_min (Recti.x r) (Vector2i.x p) /\
  Recti.y r' = Recti.std_min (Recti.y r) (Vector2i.y p) /\
  Recti.right r' = Recti.std_max (Recti.right r) (Vector2i.x p) /\
  Recti.bottom r' = Recti.std_max (Recti.bottom r) (Vector2i.y p) /\
  (forall q : Vector2i.t,
     Recti.contains r q = true -> Recti.contains r' q = true) /\
  (Recti.contains r' p = true <->
   (Vector2i.x p < Recti.right r /\ Vector2i.y p < Recti.bottom r)%Z).
Proof.
  destruct r as [x0 y0 w0 h0], p as [px py].
  unfold Recti.bounded, Recti.small.
  cbn [Recti.x Recti.y Recti.width Recti.height Vector2i.x Vector2i.y].
  intros (? & ? & ? & ?) ? ?.
  repeat match goal with |- _ /\ _ => split end;
    try reflexivity;
    try (intros q; rewrite !Recti_contains_iff);
    try rewrite Recti_contains_iff;
    unfold Recti.representable, Recti.INT_MIN, Recti.INT_MAX,
      Recti.expand, mbind, gets, modify, Recti.right, Recti.bottom,
      Recti.std_max, Recti.std_min;
    cbn [Recti.x Recti.y Recti.width Recti.height Vector2i.x Vector2i.y
         fst snd];
    split_int_comparisons;
    cbn [Recti.x Recti.y Recti.width Recti.height]; lia.
Qed.

(** The square from (0, 0) to (1, 1) expanded to the point (2, 2) still
    contains its origin. *)
Lemma expand_grows_but_excludes_far_edges_witness :
  Recti.contains (fst (Recti.expand (Vector2i.mk 2 2) (Recti.mk 0 0 1 1)))
                 (Vector2i.mk 0 0) = true.
Proof.
  assert (Hr : Recti.bounded (Recti.mk 0 0 1 1))
    by (unfold Recti.bounded, Recti.small; cbn; lia).
  assert (Hx : Recti.small (Vector2i.x (Vector2i.mk 2 2)))
    by (unfold Recti.small; cbn; lia).
  assert (Hy : Recti.small (Vector2i.y (Vector2i.mk 2 2)))
    by (unfold Recti.small; cbn; lia).
  pose proof (@expand_grows_but_excludes_far_edges _ _ Hr Hx Hy) as H.
  cbv zeta in H.
  destruct H as (_ & _ & _ & _ & _ & _ & _ & _ & _ & _ & _ & Hkeep & _).
  apply Hkeep. reflexivity.
Defined.

(** ** Matrices *)

(** Name the sixteen entries of every matrix in the context. *)
Ltac name_entries :=
  repeat match goal with
  | m : Matrix4x4.t |- _ => destruct m as [[? ? ? ?] [? ? ? ?] [? ? ? ?] [? ? ? ?]]
  end.

Lemma array4_ext (A : Type) (a b c d a' b' c' d' : A) :
  a = a' -> b = b' -> c = c' -> d = d' ->
  Array4 a b c d = Array4 a' b' c' d'.
Proof. intros -> -> -> ->. reflexivity. Qed.

(** Equality of two matrices whose entries are polynomials. *)
Ltac matrix_ring :=
  name_entries;
  cbv [Matrix4x4.mul Matrix4x4.transposed Matrix4x4.identity
       Matrix4x4.default Matrix4x4.set Matrix4x4.get Matrix4x4.determinant
       for_ fold_left seq at4 set4 e0 e1 e2 e3];
  repeat apply array4_ext; ring.

(** X9.  The matrix product is associative and the identity matrix is
    neutral on both sides. *)
Theorem matrix_mul_is_monoid (a b c : Matrix4x4.t) :
  Matrix4x4.mul Matrix4x4.identity a = a /\
  Matrix4x4.mul a Matrix4x4.identity = a /\
  Matrix4x4.mul (Matrix4x4.mul a b) c = Matrix4x4.mul a (Matrix4x4.mul b c).
Proof. repeat split; matrix_ring. Qed.

(** X10.  Transposing twice gives the matrix back, the transpose of a
    product is the product of the transposes in reverse order, and the
    determinant is unchanged by transposition. *)
Theorem transposed_is_anti_involution (a b : Matrix4x4.t) :
  Matrix4x4.transposed (Matrix4x4.transposed a) = a /\
  Matrix4x4.transposed (Matrix4x4.mul a b) =
  Matrix4x4.mul (Matrix4x4.transposed b) (Matrix4x4.transposed a) /\
  Matrix4x4.determinant (Matrix4x4.transposed a) = Matrix4x4.determinant a.
Proof. repeat split; matrix_ring. Qed.

(** X11.  The determinant of a product is the product of the
    determinants. *)
Theorem determinant_is_multiplicative (a b : Matrix4x4.t) :
  Matrix4x4.determinant (Matrix4x4.mul a b) =
  Matrix4x4.determinant a * Matrix4x4.determinant b.
Proof. matrix_ring. Qed.



(** An affine matrix applied to a point: the fourth coordinate is 1 and
    the division leaves the first three as they are. *)
Lemma mul_vec_affine {L : numeric_limits} (m : Matrix4x4.t)
  (v : Vector3.t) :
  Matrix4x4.affine m ->
  Matrix4x4.mul_vec m v =
  Vector3.mk
    (Vector3.x v * Matrix4x4.get m 0 0 + Vector3.y v * Matrix4x4.get m 0 1
     + Vector3.z v * Matrix4x4.get m 0 2 + Matrix4x4.get m 0 3)
    (Vector3.x v * Matrix4x4.get m 1 0 + Vector3.y v * Matrix4x4.get m 1 1
     + Vector3.z v * Matrix4x4.get m 1 2 + Matrix4x4.get m 1 3)
    (Vector3.x v * Matrix4x4.get m 2 0 + Vector3.y v * Matrix4x4.get m 2 1
     + Vector3.z v * Matrix4x4.get m 2 2 + Matrix4x4.get m 2 3).
Proof.
  intros (H0 & H1 & H2 & H3). unfold Matrix4x4.mul_vec.
  rewrite H0, H1, H2, H3.
  replace (Vector3.x v * 0 + Vector3.y v * 0 + Vector3.z v * 0 + 1) with 1
    by ring.
  rewrite Rltb_true by (rewrite Rabs_R1; apply epsilon_lt_1).
  f_equal; field.
Qed.

Lemma affine_translation (t : Vector3.t) :
  Matrix4x4.affine (Matrix4x4.translation t).
Proof. repeat split. Qed.

Lemma affine_scaling (s : Vector3.t) :
  Matrix4x4.affine (Matrix4x4.scaling s).
Proof. repeat split. Qed.

Lemma affine_identity : Matrix4x4.affine Matrix4x4.identity.
Proof. repeat split. Qed.

Lemma mul_vec_translation {L : numeric_limits} (t v : Vector3.t) :
  Matrix4x4.mul_vec (Matrix4x4.translation t) v = Vector3.add v t.
Proof.
  rewrite (mul_vec_affine _ (affine_translation t)).
  destruct v as [vx vy vz], t as [tx ty tz].
  unfold Vector3.add. cbn. f_equal; ring.
Qed.

Lemma mul_vec_scaling {L : numeric_limits} (s v : Vector3.t) :
  Matrix4x4.mul_vec (Matrix4x4.scaling s) v = Vector3.mul v s.
Proof.
  rewrite (mul_vec_affine _ (affine_scaling s)).
  destruct v as [vx vy vz], s as [sx sy sz].
  unfold Vector3.mul. cbn. f_equal; ring.
Qed.

(** X13.  Applied to a point, the identity matrix returns the point, a
    translation matrix adds the translation and a scaling matrix
    multiplies componentwise. *)
Theorem mul_vec_of_factories {L : numeric_limits} (v t : Vector3.t) :
  Matrix4x4.mul_vec Matrix4x4.identity v = v /\
  Matrix4x4.mul_vec (Matrix4x4.translation t) v = Vector3.add v t /\
  Matrix4x4.mul_vec (Matrix4x4.scaling t) v = Vector3.mul v t.
Proof.
  repeat split.
  - rewrite (mul_vec_affine _ affine_identity).
    destruct v as [vx vy vz]. cbn. f_equal; ring.
  - apply mul_vec_translation.
  - apply mul_vec_scaling.
Qed.

Lemma affine_mul (a b : Matrix4x4.t) :
  Matrix4x4.affine a -> Matrix4x4.affine b ->
  Matrix4x4.affine (Matrix4x4.mul a b).
Proof.
  intros (A0 & A1 & A2 & A3) (B0 & B1 & B2 & B3).
  destruct a as [[? ? ? ?] [? ? ? ?] [? ? ? ?] [? ? ? ?]],
           b as [[? ? ? ?] [? ? ? ?] [? ? ? ?] [? ? ? ?]].
  cbv [Matrix4x4.get at4 e0 e1 e2 e3] in A0, A1, A2, A3, B0, B1, B2, B3.
  subst.
  cbv [Matrix4x4.affine Matrix4x4.mul Matrix4x4.default Matrix4x4.set
       Matrix4x4.get for_ fold_left seq at4 set4 e0 e1 e2 e3].
  repeat split; ring.
Qed.

Lemma mul_vec_mul_affine {L : numeric_limits} (a b : Matrix4x4.t)
  (v : Vector3.t) :
  Matrix4x4.affine a -> Matrix4x4.affine b ->
  Matrix4x4.mul_vec (Matrix4x4.mul a b) v =
  Matrix4x4.mul_vec a (Matrix4x4.mul_vec b v).
Proof.
  intros Ha Hb.
  rewrite (mul_vec_affine _ (affine_mul Ha Hb)), (mul_vec_affine _ Ha),
    (mul_vec_affine _ Hb).
  destruct Ha as (A0 & A1 & A2 & A3), Hb as (B0 & B1 & B2 & B3).
  destruct a as [[? ? ? ?] [? ? ? ?] [? ? ? ?] [? ? ? ?]],
           b as [[? ? ? ?] [? ? ? ?] [? ? ? ?] [? ? ? ?]],
           v as [vx vy vz].
  cbv [Matrix4x4.get at4 e0 e1 e2 e3] in A0, A1, A2, A3, B0, B1, B2, B3.
  subst.
  cbv [Matrix4x4.mul Matrix4x4.default Matrix4x4.set Matrix4x4.get
       for_ fold_left seq at4 set4 e0 e1 e2 e3
       Vector3.x Vector3.y Vector3.z].
  f_equal; ring.
Qed.

(** X14.  The product of two affine matrices is affine, and applying it
    to a point is applying the right factor, then the left one. *)
Theorem mul_vec_composes_on_affine {L : numeric_limits}
  (a b : Matrix4x4.t) (v : Vector3.t) :
  Matrix4x4.affine a -> Matrix4x4.affine b ->
  Matrix4x4.affine (Matrix4x4.mul a b) /\
  Matrix4x4.mul_vec (Matrix4x4.mul a b) v =
  Matrix4x4.mul_vec a (Matrix4x4.mul_vec b v).
Proof.
  intros Ha Hb. split; [apply affine_mul | apply mul_vec_mul_affine];
    assumption.
Qed.

(** A translation after a scaling, applied to (1, 1, 1), for [float]. *)
Lemma mul_vec_composes_on_affine_witness :
  Matrix4x4.mul_vec (L := float_limits)
    (Matrix4x4.mul (Matrix4x4.translation (Vector3.mk 1 0 0))
                   (Matrix4x4.scaling (Vector3.mk 2 2 2)))
    (Vector3.mk 1 1 1) =
  Matrix4x4.mul_vec (L := float_limits)
    (Matrix4x4.translation (Vector3.mk 1 0 0))
    (Matrix4x4.mul_vec (L := float_limits)
       (Matrix4x4.scaling (Vector3.mk 2 2 2)) (Vector3.mk 1 1 1)).
Proof.
  apply (@mul_vec_composes_on_affine float_limits
           (Matrix4x4.translation (Vector3.mk 1 0 0))
           (Matrix4x4.scaling (Vector3.mk 2 2 2)) (Vector3.mk 1 1 1)).
  - repeat split.
  - repeat split.
Defined.

(** The perspective division is skipped when the fourth coordinate is
    within machine epsilon of zero, and performed otherwise. *)
Lemma mul_vec_divides_by_w {L : numeric_limits} (m : Matrix4x4.t)
  (v : Vector3.t) :
  let w := Vector3.x v * Matrix4x4.get m 3 0
           + Vector3.y v * Matrix4x4.get m 3 1
           + Vector3.z v * Matrix4x4.get m 3 2 + Matrix4x4.get m 3 3 in
  epsilon < Rabs w ->
  Vector3.scale (Matrix4x4.mul_vec m v) w =
  Vector3.mk
    (Vector3.x v * Matrix4x4.get m 0 0 + Vector3.y v * Matrix4x4.get m 0 1
     + Vector3.z v * Matrix4x4.get m 0 2 + Matrix4x4.get m 0 3)
    (Vector3.x v * Matrix4x4.get m 1 0 + Vector3.y v * Matrix4x4.get m 1 1
     + Vector3.z v * Matrix4x4.get m 1 2 + Matrix4x4.get m 1 3)
    (Vector3.x v * Matrix4x4.get m 2 0 + Vector3.y v * Matrix4x4.get m 2 1
     + Vector3.z v * Matrix4x4.get m 2 2 + Matrix4x4.get m 2 3).
Proof.
  intros w Hw. unfold Matrix4x4.mul_vec. fold w.
  rewrite (Rltb_true Hw).
  assert (Hnz : w <> 0).
  { intros Hz. rewrite Hz, Rabs_R0 in Hw. pose proof epsilon_pos. lra. }
  unfold Vector3.scale. cbn. f_equal; field; exact Hnz.
Qed.

Lemma sin_cos_square (a : R) : sin a * sin a + cos a * cos a = 1.
Proof. pose proof (sin2_cos2 a) as H. unfold Rsqr in H. exact H. Qed.

(** Unfold the rotation factories and the product down to the entries. *)
Ltac rotation_entries :=
  cbv [Matrix4x4.mul Matrix4x4.transposed Matrix4x4.identity
       Matrix4x4.rotationX Matrix4x4.rotationY Matrix4x4.rotationZ
       Matrix4x4.determinant Matrix4x4.default Matrix4x4.set Matrix4x4.get
       for_ fold_left seq at4 set4 e0 e1 e2 e3].

(** X15.  Rotations about one coordinate axis compose by adding their
    angles; each rotation matrix times its transpose is the identity, and
    its determinant is 1. *)
Theorem axis_rotations_compose (a b : R) :
  (Matrix4x4.mul (Matrix4x4.rotationX a) (Matrix4x4.rotationX b) =
     Matrix4x4.rotationX (a + b) /\
   Matrix4x4.mul (Matrix4x4.rotationY a) (Matrix4x4.rotationY b) =
     Matrix4x4.rotationY (a + b) /\
   Matrix4x4.mul (Matrix4x4.rotationZ a) (Matrix4x4.rotationZ b) =
     Matrix4x4.rotationZ (a + b)) /\
  (Matrix4x4.mul (Matrix4x4.rotationX a)
     (Matrix4x4.transposed (Matrix4x4.rotationX a)) = Matrix4x4.identity /\
   Matrix4x4.mul (Matrix4x4.rotationY a)
     (Matrix4x4.transposed (Matrix4x4.rotationY a)) = Matrix4x4.identity /\
   Matrix4x4.mul (Matrix4x4.rotationZ a)
     (Matrix4x4.transposed (Matrix4x4.rotationZ a)) = Matrix4x4.identity) /\
  (Matrix4x4.determinant (Matrix4x4.rotationX a) = 1 /\
   Matrix4x4.determinant (Matrix4x4.rotationY a) = 1 /\
   Matrix4x4.determinant (Matrix4x4.rotationZ a) = 1).
Proof.
  pose proof (sin_cos_square a) as Hone.
  repeat match goal with |- _ /\ _ => split end;
    rotation_entries; rewrite ?cos_plus, ?sin_plus;
    repeat apply array4_ext; nra.
Qed.

(** What [normalized()] returned, when it returned. *)
Lemma Vector3_normalized_Ok {L : numeric_limits} (v u : Vector3.t) :
  Vector3.normalized v = Ok u ->
  epsilon <= Vector3.length v /\
  u = Vector3.mk (Vector3.x v / Vector3.length v)
                 (Vector3.y v / Vector3.length v)
                 (Vector3.z v / Vector3.length v).
Proof.
  intros Hu.
  destruct (Rlt_dec (Vector3.length v) epsilon) as [Hshort | Hlong].
  - unfold Vector3.normalized in Hu. rewrite (Rltb_true Hshort) in Hu.
    discriminate.
  - apply Rnot_lt_le in Hlong.
    rewrite (Vector3_normalized_returns _ Hlong) in Hu.
    injection Hu as <-. split; [exact Hlong | reflexivity].
Qed.

(** X16.  The view matrix [lookAt(eye, center, up)] builds, when the two
    normalizations succeed, is affine, sends the eye to the origin and
    sends the center to the point at distance [|center - eye|] down the
    negative z axis. *)
Theorem lookAt_places_eye_at_origin {L : numeric_limits}
  (eye center up : Vector3.t) (m : Matrix4x4.t) :
  Matrix4x4.lookAt eye center up = Ok m ->
  Matrix4x4.affine m /\
  Matrix4x4.mul_vec m eye = Vector3.mk 0 0 0 /\
  Matrix4x4.mul_vec m center =
  Vector3.mk 0 0 (- Vector3.length (Vector3.sub center eye)).
Proof.
  unfold Matrix4x4.lookAt. intros Hm.
  destruct (Vector3.normalized (Vector3.sub center eye)) as [f | ] eqn:Hf;
    [ | discriminate].
  cbn [bind] in Hm.
  destruct (Vector3.normalized (Vector3.cross f up)) as [s | ] eqn:Hs;
    [ | discriminate].
  cbn [bind] in Hm. injection Hm as <-.
  apply Vector3_normalized_Ok in Hf. destruct Hf as (Hlen1 & ->).
  apply Vector3_normalized_Ok in Hs. destruct Hs as (Hlen2 & ->).
  pose proof epsilon_pos as Hpos.
  pose proof (Vector3_length_squared (Vector3.sub center eye)) as Hsq.
  set (len1 := Vector3.length (Vector3.sub center eye)) in *.
  set (len2 := Vector3.length (Vector3.cross _ up)) in *.
  clearbody len2.
  assert (Hn1 : len1 <> 0) by lra.
  assert (Hn2 : len2 <> 0) by lra.
  match goal with |- Matrix4x4.affine ?M /\ _ =>
    assert (Haff : Matrix4x4.affine M) by (repeat split)
  end.
  split; [exact Haff | ].
  rewrite !(mul_vec_affine _ Haff).
  destruct eye as [ex ey ez], center as [cx cy cz], up as [ux uy uz].
  unfold Vector3.lengthSquared, Vector3.sub in Hsq. cbn in Hsq.
  unfold Vector3.dot, Vector3.cross, Vector3.sub. cbn.
  split.
  - f_equal; field; auto.
  - f_equal.
    + field; auto.
    + field; auto.
    + apply (Rmult_eq_reg_r len1); [ | exact Hn1].
      transitivity (- ((cx - ex) * (cx - ex) + (cy - ey) * (cy - ey)
                       + (cz - ez) * (cz - ez)));
        [field; exact Hn1 | rewrite <- Hsq; ring].
Qed.

(** The camera at (0, 0, 5) looking at the origin, for [float]. *)
Lemma lookAt_places_eye_at_origin_witness :
  exists m : Matrix4x4.t,
    Matrix4x4.lookAt (L := float_limits)
      (Vector3.mk 0 0 5) (Vector3.mk 0 0 0) (Vector3.mk 0 1 0) = Ok m /\
    Matrix4x4.mul_vec (L := float_limits) m (Vector3.mk 0 0 5) =
    Vector3.mk 0 0 0.
Proof.
  assert (Hret : exists m : Matrix4x4.t,
            Matrix4x4.lookAt (L := float_limits)
              (Vector3.mk 0 0 5) (Vector3.mk 0 0 0) (Vector3.mk 0 1 0)
            = Ok m).
  { assert (H1 : Vector3.length
                   (Vector3.sub (Vector3.mk 0 0 0) (Vector3.mk 0 0 5)) = 5).
    { apply sqrt_of_square; [lra | ].
      unfold Vector3.lengthSquared, Vector3.sub. cbn. ring. }
    unfold Matrix4x4.lookAt.
    rewrite Vector3_normalized_returns by (rewrite H1; cbn; lra).
    rewrite H1. cbn [bind].
    match goal with |- context [Vector3.normalized ?v] =>
      assert (H2 : Vector3.length v = 1)
    end.
    { apply sqrt_of_square; [lra | ].
      unfold Vector3.lengthSquared, Vector3.cross, Vector3.sub. cbn. field. }
    rewrite Vector3_normalized_returns by (rewrite H2; cbn; lra).
    cbn [bind]. eexists. reflexivity. }
  destruct Hret as [m Hm]. exists m. split; [exact Hm | ].
  apply (@lookAt_places_eye_at_origin float_limits
           (Vector3.mk 0 0 5) (Vector3.mk 0 0 0) (Vector3.mk 0 1 0) m Hm).
Defined.





(** ** Quaternions *)

(** Equality of quaternions or vectors whose components are polynomials
    in the components of the quaternions and vectors of the context. *)
Ltac components_ring :=
  repeat match goal with
  | q : Quaternion.t |- _ => destruct q as [? ? ? ?]
  | v : Vector3.t |- _ => destruct v as [? ? ?]
  end;
  cbv [Quaternion.mul Quaternion.conjugate Quaternion.rotate
       Quaternion.default Quaternion.magSquared Quaternion.negated
       Quaternion.dot
       Quaternion.w Quaternion.x Quaternion.y Quaternion.z
       Vector3.lengthSquared Vector3.dot Vector3.x Vector3.y Vector3.z];
  try (f_equal; ring); try ring.

(** X19.  The Hamilton product is associative with the identity rotation
    as neutral element, the squared magnitude of a product is the product
    of the squared magnitudes, and conjugation reverses products. *)
Theorem quaternion_product_laws (p q r : Quaternion.t) :
  Quaternion.mul (Quaternion.mul p q) r =
    Quaternion.mul p (Quaternion.mul q r) /\
  Quaternion.mul Quaternion.default p = p /\
  Quaternion.mul p Quaternion.default = p /\
  Quaternion.magSquared (Quaternion.mul p q) =
    Quaternion.magSquared p * Quaternion.magSquared q /\
  Quaternion.conjugate (Quaternion.mul p q) =
    Quaternion.mul (Quaternion.conjugate q) (Quaternion.conjugate p).
Proof. repeat split; components_ring. Qed.



(** X21.  Rotating a vector by a product of quaternions is rotating by the
    right factor, then by the left one.  The rotation by [q] multiplies
    squared lengths by the square of the squared magnitude of [q], so it
    keeps lengths exactly when [q] has unit length; the identity rotation
    leaves every vector in place. *)
Theorem quaternion_rotation_composes (p q : Quaternion.t) (v : Vector3.t) :
  Quaternion.rotate (Quaternion.mul p q) v =
    Quaternion.rotate p (Quaternion.rotate q v) /\
  Vector3.lengthSquared (Quaternion.rotate q v) =
    Quaternion.magSquared q * Quaternion.magSquared q
    * Vector3.lengthSquared v /\
  (Quaternion.unit q ->
   Vector3.lengthSquared (Quaternion.rotate q v) = Vector3.lengthSquared v) /\
  Quaternion.rotate Quaternion.default v = v.
Proof.
  assert (Hscale : Vector3.lengthSquared (Quaternion.rotate q v) =
            Quaternion.magSquared q * Quaternion.magSquared q
            * Vector3.lengthSquared v) by components_ring.
  repeat match goal with |- _ /\ _ => split end.
  - components_ring.
  - exact Hscale.
  - intros Hunit. rewrite Hscale.
    unfold Quaternion.unit in Hunit. unfold Quaternion.magSquared.
    rewrite Hunit. ring.
  - components_ring.
Qed.

(** The half turn about the z axis applied to (1, 2, 3). *)
Lemma quaternion_rotation_composes_witness :
  Vector3.lengthSquared
    (Quaternion.rotate (Quaternion.mk 0 0 0 1) (Vector3.mk 1 2 3)) =
  Vector3.lengthSquared (Vector3.mk 1 2 3).
Proof.
  apply (@quaternion_rotation_composes Quaternion.default
           (Quaternion.mk 0 0 0 1) (Vector3.mk 1 2 3)).
  unfold Quaternion.unit. cbn. ring.
Defined.

Lemma affine_toRotationMatrix (q : Quaternion.t) :
  Matrix4x4.affine (Quaternion.toRotationMatrix q).
Proof. repeat split. Qed.

Lemma rotation_matrix_rotates {L : numeric_limits}
  (q : Quaternion.t) (v : Vector3.t) :
  Quaternion.unit q ->
  Matrix4x4.mul_vec (Quaternion.toRotationMatrix q) v =
  Quaternion.rotate q v.
Proof.
  intros Hunit. rewrite (mul_vec_affine _ (affine_toRotationMatrix q)).
  destruct q as [qw qx qy qz], v as [vx vy vz].
  unfold Quaternion.unit in Hunit. cbn in Hunit.
  unfold Quaternion.toRotationMatrix, Quaternion.rotate, Quaternion.mul,
    Quaternion.conjugate. cbn.
  assert (Hw : qw * qw = 1 - qx * qx - qy * qy - qz * qz) by lra.
  f_equal.
  - transitivity
      (vx * (qw * qw + qx * qx - qy * qy - qz * qz)
       + vy * (2 * (qx * qy - qw * qz)) + vz * (2 * (qx * qz + qw * qy)));
      [rewrite Hw; ring | ring].
  - transitivity
      (vx * (2 * (qx * qy + qw * qz))
       + vy * (qw * qw - qx * qx + qy * qy - qz * qz)
       + vz * (2 * (qy * qz - qw * qx)));
      [rewrite Hw; ring | ring].
  - transitivity
      (vx * (2 * (qx * qz - qw * qy)) + vy * (2 * (qy * qz + qw * qx))
       + vz * (qw * qw - qx * qx - qy * qy + qz * qz));
      [rewrite Hw; ring | ring].
Qed.

(** X22.  For a unit quaternion, [toRotationMatrix()] is an affine
    matrix, and applying it to a point is rotating the point by the
    quaternion. *)
Theorem toRotationMatrix_agrees_with_rotate {L : numeric_limits}
  (q : Quaternion.t) (v : Vector3.t) :
  Quaternion.unit q ->
  Matrix4x4.affine (Quaternion.toRotationMatrix q) /\
  Matrix4x4.mul_vec (Quaternion.toRotationMatrix q) v =
  Quaternion.rotate q v.
Proof.
  intros Hunit.
  split; [apply affine_toRotationMatrix | now apply rotation_matrix_rotates].
Qed.

(** The half turn about the x axis applied to (1, 2, 3), for [float]. *)
Lemma toRotationMatrix_agrees_with_rotate_witness :
  Matrix4x4.mul_vec (L := float_limits)
    (Quaternion.toRotationMatrix (Quaternion.mk 0 1 0 0)) (Vector3.mk 1 2 3) =
  Quaternion.rotate (Quaternion.mk 0 1 0 0) (Vector3.mk 1 2 3).
Proof.
  apply (@toRotationMatrix_agrees_with_rotate float_limits
           (Quaternion.mk 0 1 0 0) (Vector3.mk 1 2 3)).
  unfold Quaternion.unit. cbn. ring.
Defined.

(** X23.  For an axis of unit length, [fromAxisAngle] returns a unit
    quaternion whose rotation leaves the axis in place; the constructor
    from axis and angle builds the same quaternion. *)
Theorem fromAxisAngle_is_unit_and_fixes_axis (axis : Vector3.t)
  (angle : R) :
  Vector3.lengthSquared axis = 1 ->
  Quaternion.unit (Quaternion.fromAxisAngle axis angle) /\
  Quaternion.rotate (Quaternion.fromAxisAngle axis angle) axis = axis /\
  Quaternion.of_axis_angle axis angle = Quaternion.fromAxisAngle axis angle.
Proof.
  intros Haxis. destruct axis as [ax ay az].
  unfold Vector3.lengthSquared in Haxis. cbn in Haxis.
  unfold Quaternion.unit, Quaternion.fromAxisAngle, Quaternion.of_axis_angle,
    Quaternion.rotate, Quaternion.mul, Quaternion.conjugate. cbn.
  pose proof (sin_cos_square (angle * (1 / 2))) as Hone.
  set (c := cos (angle * (1 / 2))) in *.
  set (s := sin (angle * (1 / 2))) in *.
  assert (Hn : ax * ax + ay * ay + az * az - 1 = 0) by lra.
  assert (Hcs : c * c = 1 - s * s) by lra.
  repeat split.
  - transitivity (c * c + s * s + s * s * (ax * ax + ay * ay + az * az - 1));
      [ring | rewrite Hn; lra].
  - f_equal.
    + transitivity
        (ax * (c * c + s * s)
         + ax * s * s * (ax * ax + ay * ay + az * az - 1));
        [ring | rewrite Hn, Hcs; ring].
    + transitivity
        (ay * (c * c + s * s)
         + ay * s * s * (ax * ax + ay * ay + az * az - 1));
        [ring | rewrite Hn, Hcs; ring].
    + transitivity
        (az * (c * c + s * s)
         + az * s * s * (ax * ax + ay * ay + az * az - 1));
        [ring | rewrite Hn, Hcs; ring].
Qed.

(** A third of a turn about the z axis. *)
Lemma fromAxisAngle_is_unit_and_fixes_axis_witness :
  Quaternion.rotate (Quaternion.fromAxisAngle (Vector3.mk 0 0 1) (2 * PI / 3))
                    (Vector3.mk 0 0 1) = Vector3.mk 0 0 1.
Proof.
  apply (@fromAxisAngle_is_unit_and_fixes_axis (Vector3.mk 0 0 1)
           (2 * PI / 3)).
  unfold Vector3.lengthSquared. cbn. ring.
Defined.

(** X24.  [fromEulerAngles] returns a unit quaternion for every triple of
    angles. *)
Theorem fromEulerAngles_is_unit (pitch yaw roll : R) :
  Quaternion.unit (Quaternion.fromEulerAngles pitch yaw roll).
Proof.
  unfold Quaternion.unit, Quaternion.fromEulerAngles. cbn.
  pose proof (sin_cos_square (yaw * (1 / 2))) as Hy.
  pose proof (sin_cos_square (pitch * (1 / 2))) as Hp.
  pose proof (sin_cos_square (roll * (1 / 2))) as Hr.
  set (cy := cos (yaw * (1 / 2))) in *. set (sy := sin (yaw * (1 / 2))) in *.
  set (cp := cos (pitch * (1 / 2))) in *.
  set (sp := sin (pitch * (1 / 2))) in *.
  set (cr := cos (roll * (1 / 2))) in *.
  set (sr := sin (roll * (1 / 2))) in *.
  transitivity ((sr * sr + cr * cr) * (sp * sp + cp * cp)
                * (sy * sy + cy * cy));
    [ring | rewrite Hy, Hp, Hr; ring].
Qed.

(** ** Quaternion slerp at the end points *)

Lemma Quaternion_normalized_of_unit {L : numeric_limits}
  (q r : Quaternion.t) :
  Quaternion.unit r ->
  Quaternion.w q = Quaternion.w r -> Quaternion.x q = Quaternion.x r ->
  Quaternion.y q = Quaternion.y r -> Quaternion.z q = Quaternion.z r ->
  Quaternion.normalized q = Ok r.
Proof.
  intros Hunit Hw Hx Hy Hz.
  assert (Hq : Quaternion.unit q).
  { unfold Quaternion.unit in *. rewrite Hw, Hx, Hy, Hz. exact Hunit. }
  rewrite (Quaternion_normalized_unit Hq), Hw, Hx, Hy, Hz.
  destruct r as [rw rx ry rz]. cbn. do 2 f_equal; field.
Qed.

Lemma slerp_at_0_and_1 {L : numeric_limits} (q1 q2 : Quaternion.t) :
  Quaternion.unit q1 -> Quaternion.unit q2 ->
  Quaternion.slerp q1 q2 0 = Ok q1 /\
  (0 <= Quaternion.dot q1 q2 -> Quaternion.slerp q1 q2 1 = Ok q2) /\
  (Quaternion.dot q1 q2 < 0 ->
   Quaternion.slerp q1 q2 1 = Ok (Quaternion.negated q2)).
Proof.
  intros H1 H2.
  assert (Hneg : Quaternion.unit (Quaternion.negated q2)).
  { unfold Quaternion.unit in *. cbn. rewrite <- H2. ring. }
  assert (Hend : forall (q : Quaternion.t) (d : R),
    Quaternion.unit q -> 0 <= d ->
    (if Rltb (9995 / 10000) d then
       Quaternion.normalized
         (Quaternion.mk
            (Quaternion.w q1 + 1 * (Quaternion.w q - Quaternion.w q1))
            (Quaternion.x q1 + 1 * (Quaternion.x q - Quaternion.x q1))
            (Quaternion.y q1 + 1 * (Quaternion.y q - Quaternion.y q1))
            (Quaternion.z q1 + 1 * (Quaternion.z q - Quaternion.z q1)))
     else
       Ok (Quaternion.mk
             ((cos (acos d * 1) - d * sin (acos d * 1) / sin (acos d))
              * Quaternion.w q1
              + sin (acos d * 1) / sin (acos d) * Quaternion.w q)
             ((cos (acos d * 1) - d * sin (acos d * 1) / sin (acos d))
              * Quaternion.x q1
              + sin (acos d * 1) / sin (acos d) * Quaternion.x q)
             ((cos (acos d * 1) - d * sin (acos d * 1) / sin (acos d))
              * Quaternion.y q1
              + sin (acos d * 1) / sin (acos d) * Quaternion.y q)
             ((cos (acos d * 1) - d * sin (acos d * 1) / sin (acos d))
              * Quaternion.z q1
              + sin (acos d * 1) / sin (acos d) * Quaternion.z q)))
    = Ok q).
  { intros q d Hq Hd. destruct (Rltb (9995 / 10000) d) eqn:Hbranch.
    - apply (Quaternion_normalized_of_unit _ Hq); cbn; ring.
    - apply Rltb_ge in Hbranch.
      assert (Hin : -1 <= d <= 1) by lra.
      rewrite Rmult_1_r, (cos_acos _ Hin), (sin_acos _ Hin).
      assert (Hs : sqrt (1 - d²) <> 0).
      { assert (0 < sqrt (1 - d²)); [ | lra].
        apply sqrt_lt_R0. unfold Rsqr. nra. }
      destruct q as [qw qx qy qz]. cbn. do 2 f_equal; field; exact Hs. }
  assert (Hstart : forall (q : Quaternion.t) (d : R),
    (if Rltb (9995 / 10000) d then
       Quaternion.normalized
         (Quaternion.mk
            (Quaternion.w q1 + 0 * (Quaternion.w q - Quaternion.w q1))
            (Quaternion.x q1 + 0 * (Quaternion.x q - Quaternion.x q1))
            (Quaternion.y q1 + 0 * (Quaternion.y q - Quaternion.y q1))
            (Quaternion.z q1 + 0 * (Quaternion.z q - Quaternion.z q1)))
     else
       Ok (Quaternion.mk
             ((cos (acos d * 0) - d * sin (acos d * 0) / sin (acos d))
              * Quaternion.w q1
              + sin (acos d * 0) / sin (acos d) * Quaternion.w q)
             ((cos (acos d * 0) - d * sin (acos d * 0) / sin (acos d))
              * Quaternion.x q1
              + sin (acos d * 0) / sin (acos d) * Quaternion.x q)
             ((cos (acos d * 0) - d * sin (acos d * 0) / sin (acos d))
              * Quaternion.y q1
              + sin (acos d * 0) / sin (acos d) * Quaternion.y q)
             ((cos (acos d * 0) - d * sin (acos d * 0) / sin (acos d))
              * Quaternion.z q1
              + sin (acos d * 0) / sin (acos d) * Quaternion.z q)))
    = Ok q1).
  { intros q d. destruct (Rltb (9995 / 10000) d).
    - apply (Quaternion_normalized_of_unit _ H1); cbn; ring.
    - rewrite Rmult_0_r, cos_0, sin_0.
      destruct q1 as [w1 x1 y1 z1]. cbn. unfold Rdiv. do 2 f_equal; ring. }
  unfold Quaternion.slerp. fold (Quaternion.dot q1 q2).
  repeat match goal with |- _ /\ _ => split end.
  - destruct (Rltb (Quaternion.dot q1 q2) 0); apply Hstart.
  - intros Hdot. rewrite (Rltb_false Hdot). apply (Hend q2 _ H2 Hdot).
  - intros Hdot. rewrite (Rltb_true Hdot).
    apply (Hend (Quaternion.negated q2) _ Hneg). lra.
Qed.

(** X25.  For unit quaternions, [slerp(q1, q2, 0)] is [q1], and
    [slerp(q1, q2, 1)] is [q2] when the dot product of the two is not
    negative and [-q2], the other quaternion of the same rotation, when
    it is. *)
Theorem quaternion_slerp_end_points {L : numeric_limits}
  (q1 q2 : Quaternion.t) :
  Quaternion.unit q1 -> Quaternion.unit q2 ->
  Quaternion.slerp q1 q2 0 = Ok q1 /\
  (0 <= Quaternion.dot q1 q2 -> Quaternion.slerp q1 q2 1 = Ok q2) /\
  (Quaternion.dot q1 q2 < 0 ->
   Quaternion.slerp q1 q2 1 = Ok (Quaternion.negated q2)).
Proof. apply slerp_at_0_and_1. Qed.

(** The identity and the half turn about the x axis, for [float]. *)
Lemma quaternion_slerp_end_points_witness :
  Quaternion.slerp (L := float_limits)
    (Quaternion.mk 1 0 0 0) (Quaternion.mk 0 1 0 0) 0 =
  Ok (Quaternion.mk 1 0 0 0).
Proof.
  apply (@quaternion_slerp_end_points float_limits
           (Quaternion.mk 1 0 0 0) (Quaternion.mk 0 1 0 0));
    unfold Quaternion.unit; cbn; ring.
Defined.

(** ** Transforms *)

(** X26.  For a transform whose rotation is a unit quaternion, applying
    the matrix [toMatrix()] builds to a point is [transformPoint]: scale
    first, then rotate, then translate. *)
Theorem toMatrix_agrees_with_transformPoint {L : numeric_limits}
  (tr : Transform.t) (point : Vector3.t) :
  Quaternion.unit (Transform.rotation tr) ->
  Matrix4x4.mul_vec (Transform.toMatrix tr) point =
  Transform.transformPoint tr point.
Proof.
  intros Hunit. unfold Transform.toMatrix, Transform.transformPoint.
  pose proof (affine_translation (Transform.position tr)) as Ht.
  pose proof (affine_toRotationMatrix (Transform.rotation tr)) as Hr.
  pose proof (affine_scaling (Transform.scale tr)) as Hs.
  rewrite (mul_vec_mul_affine _ (affine_mul Ht Hr) Hs).
  rewrite (mul_vec_mul_affine _ Ht Hr).
  rewrite mul_vec_scaling, (rotation_matrix_rotates _ Hunit).
  apply mul_vec_translation.
Qed.

(** Scale by 2, half turn about x, move by (1, 0, 0), for [float]. *)
Lemma toMatrix_agrees_with_transformPoint_witness :
  let tr := Transform.mk (Vector3.mk 1 0 0) (Quaternion.mk 0 1 0 0)
                         (Vector3.mk 2 2 2) in
  Matrix4x4.mul_vec (L := float_limits) (Transform.toMatrix tr)
    (Vector3.mk 1 2 3) =
  Transform.transformPoint tr (Vector3.mk 1 2 3).
Proof.
  intros tr.
  apply (@toMatrix_agrees_with_transformPoint float_limits tr
           (Vector3.mk 1 2 3)).
  unfold Quaternion.unit. cbn. ring.
Defined.


(** ** Ray queries *)


(** X27.  When [Plane::intersects] returns true, the parameter it stores
    is not negative and the point of the ray at that parameter lies on
    the plane.  When it returns false although the ray is not
    near-parallel to the plane, no point of the ray at a non-negative
    parameter lies on the plane. *)
Theorem plane_hit_lies_on_plane {L : numeric_limits} (p : Plane.t)
  (ray : Ray.t) (t0 : R) :
  (forall s : R, Plane.intersects p ray t0 = (true, s) ->
     0 <= s /\ Plane.distanceToPoint p (Ray.getPoint ray s) = 0) /\
  (epsilon <= Rabs (Vector3.dot (Plane.normal p) (Ray.direction ray)) ->
   fst (Plane.intersects p ray t0) = false ->
   forall s : R, 0 <= s ->
     Plane.distanceToPoint p (Ray.getPoint ray s) <> 0).
Proof.
  pose proof epsilon_pos as Hpos.
  assert (Hdist : forall s : R,
    Plane.distanceToPoint p (Ray.getPoint ray s) =
    Vector3.dot (Plane.normal p) (Ray.origin ray) + Plane.distance p
    + s * Vector3.dot (Plane.normal p) (Ray.direction ray)).
  { intros s. destruct p as [[nx ny nz] d], ray as [[ox oy oz] [dx dy dz]].
    unfold Plane.distanceToPoint, Ray.getPoint, Vector3.dot, Vector3.add,
      Vector3.scale. cbn. ring. }
  unfold Plane.intersects.
  set (denom := Vector3.dot (Plane.normal p) (Ray.direction ray)) in *.
  set (num := Vector3.dot (Plane.normal p) (Ray.origin ray)
              + Plane.distance p) in *.
  split.
  - intros s. destruct (Rltb (Rabs denom) epsilon) eqn:Hpar;
      [discriminate | ].
    apply Rltb_ge in Hpar.
    assert (Hnz : denom <> 0).
    { intros Hz. rewrite Hz, Rabs_R0 in Hpar. lra. }
    intros Hhit. injection Hhit as Hsign <-.
    apply Rleb_le in Hsign. split; [exact Hsign | ].
    rewrite Hdist. field. exact Hnz.
  - intros Hcross. rewrite (Rltb_false Hcross). cbn.
    assert (Hnz : denom <> 0).
    { intros Hz. rewrite Hz, Rabs_R0 in Hcross. lra. }
    intros Hmiss s Hs Hon. apply Rleb_gt in Hmiss.
    rewrite Hdist in Hon.
    assert (Hs' : s = - num / denom) by (field_simplify_eq; [lra | exact Hnz]).
    lra.
Qed.

(** The plane y = 0 and the downward ray from (0, 5, 0), for [float]. *)
Lemma plane_hit_lies_on_plane_witness :
  0 <= 5 /\
  Plane.distanceToPoint (Plane.mk (Vector3.mk 0 1 0) 0)
    (Ray.getPoint (Ray.mk (Vector3.mk 0 5 0) (Vector3.mk 0 (-1) 0)) 5) = 0.
Proof.
  apply (@plane_hit_lies_on_plane float_limits
           (Plane.mk (Vector3.mk 0 1 0) 0)
           (Ray.mk (Vector3.mk 0 5 0) (Vector3.mk 0 (-1) 0)) 0).
  unfold Plane.intersects, Vector3.dot. cbn.
  rewrite Rltb_false by (cbn; unfold Rabs; destruct (Rcase_abs _); lra).
  rewrite Rleb_true by lra. f_equal. field.
Defined.




(** ** The slab test *)












(** ** Frustum culling *)

(** The corner [intersects] selects is at least as far on the positive
    side of the plane as any point of the box. *)
Lemma positive_vertex_is_farthest (plane : Plane.t) (box : AABB.t)
  (p : Vector3.t) :
  AABB.contains box p = true ->
  Plane.distanceToPoint plane p <=
  Plane.distanceToPoint plane (Frustum.positive_vertex plane box).
Proof.
  unfold AABB.contains. rewrite !andb_true_iff, !Rleb_le.
  intros (((((Hx1 & Hx2) & Hy1) & Hy2) & Hz1) & Hz2).
  destruct plane as [[nx ny nz] d], box as [[lx ly lz] [hx hy hz]],
    p as [px py pz].
  unfold Plane.distanceToPoint, Frustum.positive_vertex, Vector3.dot.
  cbn in *.
  split_comparisons; cbn; nra.
Qed.

(** X30.  [Frustum::intersects] never rejects a box that holds a point
    the frustum contains. *)
Theorem frustum_keeps_boxes_around_contained_points (f : Frustum.t)
  (box : AABB.t) (p : Vector3.t) :
  AABB.contains box p = true ->
  Frustum.contains f p = true ->
  Frustum.intersects f box = true.
Proof.
  intros Hbox. unfold Frustum.contains, Frustum.intersects.
  rewrite !forallb_forall. intros Hin plane Hplane.
  specialize (Hin plane Hplane).
  apply negb_true_iff in Hin. apply Rltb_ge in Hin.
  apply negb_true_iff, Rltb_ge.
  pose proof (positive_vertex_is_farthest plane _ _ Hbox). lra.
Qed.

(** The half space z >= 0 as a one-plane frustum, the unit box and the
    point (0, 0, 1). *)
Lemma frustum_keeps_boxes_around_contained_points_witness :
  Frustum.intersects [Plane.mk (Vector3.mk 0 0 1) 0]
    (AABB.mk (Vector3.mk (-1) (-1) (-1)) (Vector3.mk 1 1 1)) = true.
Proof.
  apply (@frustum_keeps_boxes_around_contained_points
           [Plane.mk (Vector3.mk 0 0 1) 0]
           (AABB.mk (Vector3.mk (-1) (-1) (-1)) (Vector3.mk 1 1 1))
           (Vector3.mk 0 0 1)).
  - unfold AABB.contains. cbn. rewrite !Rleb_true by lra. reflexivity.
  - unfold Frustum.contains, Plane.distanceToPoint, Vector3.dot. cbn.
    rewrite Rltb_false by lra. reflexivity.
Defined.

(** The frustum built from the identity matrix contains exactly the
    points of the cube from (-1, -1, -1) to (1, 1, 1). *)
Lemma identity_frustum_is_unit_cube {L : numeric_limits} :
  exists f : Frustum.t,
    Frustum.make Matrix4x4.identity = Ok f /\
    forall p : Vector3.t,
      Frustum.contains f p = true <->
      -1 <= Vector3.x p <= 1 /\ -1 <= Vector3.y p <= 1 /\
      -1 <= Vector3.z p <= 1.
Proof.
  assert (Hlen : forall k : nat, (k < 6)%nat ->
    Vector3.length (Frustum.raw_normal Matrix4x4.identity k) = 1).
  { intros k Hk. destruct k as [|[|[|[|[|[|k]]]]]]; try lia;
      (apply sqrt_of_square;
       [lra
       | unfold Vector3.lengthSquared, Frustum.raw_normal,
           Frustum.column_plus, Frustum.column_minus, Matrix4x4.get;
         cbn; ring]). }
  eexists. split.
  - unfold Frustum.make. apply updatePlanes_returns; [reflexivity | ].
    intros k Hk. rewrite (Hlen k Hk). pose proof epsilon_lt_1. lra.
  - intros [px py pz]. cbn [map seq Frustum.contains forallb].
    unfold Frustum.updated_plane. rewrite !Hlen by lia.
    unfold Plane.distanceToPoint, Vector3.dot. cbn.
    rewrite !andb_true_iff, !negb_true_iff, !Rltb_ge. lra.
Qed.
